(** * APyMongo [apymongo/cursor.py]: the asynchronous cursor

    A shallow embedding of class [Cursor] of [apymongo/cursor.py] and the
    properties of its protocol state machine.

    - Python objects are values of the type [value]; a method that type-checks
      its argument with [isinstance] receives a [value].
    - A method is a computation in a state-and-exception monad over a [world]:
      the cursor's fields together with the trace of everything the cursor
      asked of its collaborators (messages handed to the transport,
      [close_cursor], [disconnect], invocations of the user's callback).
    - The transport is asynchronous: [_send_message_with_response] registers
      [mod_callback] and returns.  A run of the event loop against a script of
      transport responses is [drive]. *)

From Stdlib Require Import ZArith List String Bool Lia.
Import ListNotations.
Local Open Scope string_scope.
Local Open Scope list_scope.
Local Open Scope Z_scope.

(** ** Exceptions *)

Inductive exn : Type :=
| TypeError (msg : string)
| ValueError (msg : string)
| AssertionError
| InvalidOperation (msg : string)   (* apymongo.errors.InvalidOperation *)
| AutoReconnect (msg : string)      (* apymongo.errors.AutoReconnect *)
| OperationFailure (msg : string)   (* apymongo.errors.OperationFailure *)
| OtherException (cls msg : string).

(** [except AutoReconnect] *)
Definition is_AutoReconnect (e : exn) : bool :=
  match e with AutoReconnect _ => true | _ => false end.

(** ** Python values *)

#[local] Set Warnings "-register-all".

Inductive value : Type :=
| VNone
| VBool (b : bool)
| VInt (z : Z)
| VLong (z : Z)                       (* Python 2 [long] *)
| VStr (s : string)
| VCode (s : string)                  (* bson.code.Code, a subclass of str *)
| VList (l : list value)
| VDict (d : list (string * value))   (* dict / SON, keys in insertion order *)
| VExc (e : exn)                      (* an exception instance *)
| VObj (n : nat).                     (* any other object: a callable, a class,
                                         a connection identifier *)

Definition dict : Type := list (string * value).

(** Truth value of an object, as tested by [if], [and], [or], [not]. *)
Definition truthy (v : value) : bool :=
  match v with
  | VNone => false
  | VBool b => b
  | VInt z | VLong z => negb (z =? 0)
  | VStr s | VCode s => negb (String.eqb s "")
  | VList l => match l with [] => false | _ :: _ => true end
  | VDict d => match d with [] => false | _ :: _ => true end
  | VExc _ => true
  | VObj _ => true
  end.

Definition is_None (v : value) : bool :=
  match v with VNone => true | _ => false end.

(** [isinstance(v, int)]: [bool] is a subclass of [int], [long] is not. *)
Definition isinstance_int (v : value) : bool :=
  match v with VInt _ | VBool _ => true | _ => false end.

(** [isinstance(v, (int, long))] *)
Definition isinstance_int_long (v : value) : bool :=
  match v with VInt _ | VBool _ | VLong _ => true | _ => false end.

Definition isinstance_bool (v : value) : bool :=
  match v with VBool _ => true | _ => false end.

Definition isinstance_dict (v : value) : bool :=
  match v with VDict _ => true | _ => false end.

Definition isinstance_Code (v : value) : bool :=
  match v with VCode _ => true | _ => false end.

(** The integer a number stands for ([True] is 1, [False] is 0).  The numeric
    fields of the cursor hold this integer. *)
Definition int_of (v : value) : Z :=
  match v with
  | VInt z | VLong z => z
  | VBool b => if b then 1 else 0
  | _ => 0
  end.

Definition bool_of (v : value) : bool :=
  match v with VBool b => b | _ => false end.

Definition dict_of (v : value) : dict :=
  match v with VDict d => d | _ => [] end.

(** [k in d] *)
Fixpoint dict_mem (k : string) (d : dict) : bool :=
  match d with
  | [] => false
  | (k', _) :: d' => String.eqb k k' || dict_mem k d'
  end.

(** [d[k] = v] *)
Fixpoint dict_set (k : string) (v : value) (d : dict) : dict :=
  match d with
  | [] => [(k, v)]
  | (k', v') :: d' =>
      if String.eqb k k' then (k, v) :: d' else (k', v') :: dict_set k v d'
  end.

(** ** Results of fallible code *)

Inductive outcome (A : Type) : Type :=
| Ok (a : A)
| Raise (e : exn).
Arguments Ok {A} a.
Arguments Raise {A} e.

(** ** Collaborators *)

(** The collection a cursor reads, with the attributes of
    [collection.database.connection] the cursor looks at. *)
Record Collection : Type := mkCollection {
  full_name : string;
  name : string;
  document_class : value;
  tz_aware : bool;
  slave_okay : bool
}.

(** What [helpers._unpack_response] returns. *)
Record reply : Type := mkReply {
  cursor_id : Z;
  starting_from : Z;
  number_returned : Z;
  data : list value
}.

(** Wire messages, by the builder of [apymongo.message] that makes them. *)
Inductive message : Type :=
| query (options : Z) (collection_name : string)
        (num_to_skip num_to_return : Z) (query_spec : dict)
        (field_selector : value)
| get_more (collection_name : string) (num_to_return : Z) (cursor_id : Z).

(** Everything the cursor asks of the outside, in order. *)
Inductive event : Type :=
| send_message_with_response (m : message)
| close_cursor (cursor_id : Z) (connection_id : option value)
| disconnect
| call_callback (callback arg : value).   (* [self.__callback(arg)] *)

(** Code of the package outside [cursor.py] ([apymongo.helpers], [bson.code],
    [Database._fix_outgoing]) and the user's processor are taken as given. *)
Class Externals : Type := {
  raw : Type;        (* an undecoded server response *)
  _unpack_response : raw -> option Z -> value -> bool -> outcome reply;
  _fix_outgoing : value -> Collection -> value;
  _index_list : value -> value -> outcome value;
  _index_document : value -> outcome value;
  _fields_list_to_dict : value -> outcome value;
  Code : value -> outcome value;
  call_processor : value -> value -> Collection -> value
}.

(** What the transport hands to the continuation it was given: an exception
    instance, a pair of a connection identifier and a raw response, or a raw
    response alone. *)
Inductive response `{Externals} : Type :=
| RException (e : exn)
| RTuple (connection_id : value) (r : raw)
| RRaw (r : raw).

(** ** The cursor *)

Record Cursor : Type := mkCursor {
  __id : option Z;
  __error : option exn;
  __collection : Collection;
  __callback : value;
  __processor : value;
  __spec : dict;
  __fields : value;
  __skip : Z;
  __limit : Z;
  __batch_size : Z;
  __store : value;
  __empty : bool;
  __timeout : bool;
  __tailable : bool;
  __snapshot : bool;
  __ordering : value;
  __max_scan : value;
  __explain : bool;
  __hint : value;
  __as_class : value;
  __tz_aware : bool;
  __must_use_master : value;
  __is_command : value;
  __data : list value;
  __datastore : list value;
  __connection_id : value;
  __retrieved : Z;
  __killed : bool;
  __kwargs : dict
}.

(** Assignment to one attribute: [self.__f = x]. *)
Definition set_id (x : option Z) (c : Cursor) : Cursor :=
  mkCursor x (__error c) (__collection c) (__callback c) (__processor c)
    (__spec c) (__fields c) (__skip c) (__limit c) (__batch_size c)
    (__store c) (__empty c) (__timeout c) (__tailable c) (__snapshot c)
    (__ordering c) (__max_scan c) (__explain c) (__hint c) (__as_class c)
    (__tz_aware c) (__must_use_master c) (__is_command c) (__data c)
    (__datastore c) (__connection_id c) (__retrieved c) (__killed c)
    (__kwargs c).
Definition set_error (x : option exn) (c : Cursor) : Cursor :=
  mkCursor (__id c) x (__collection c) (__callback c) (__processor c)
    (__spec c) (__fields c) (__skip c) (__limit c) (__batch_size c)
    (__store c) (__empty c) (__timeout c) (__tailable c) (__snapshot c)
    (__ordering c) (__max_scan c) (__explain c) (__hint c) (__as_class c)
    (__tz_aware c) (__must_use_master c) (__is_command c) (__data c)
    (__datastore c) (__connection_id c) (__retrieved c) (__killed c)
    (__kwargs c).
Definition set_spec (x : dict) (c : Cursor) : Cursor :=
  mkCursor (__id c) (__error c) (__collection c) (__callback c)
    (__processor c) x (__fields c) (__skip c) (__limit c) (__batch_size c)
    (__store c) (__empty c) (__timeout c) (__tailable c) (__snapshot c)
    (__ordering c) (__max_scan c) (__explain c) (__hint c) (__as_class c)
    (__tz_aware c) (__must_use_master c) (__is_command c) (__data c)
    (__datastore c) (__connection_id c) (__retrieved c) (__killed c)
    (__kwargs c).
Definition set_skip (x : Z) (c : Cursor) : Cursor :=
  mkCursor (__id c) (__error c) (__collection c) (__callback c)
    (__processor c) (__spec c) (__fields c) x (__limit c) (__batch_size c)
    (__store c) (__empty c) (__timeout c) (__tailable c) (__snapshot c)
    (__ordering c) (__max_scan c) (__explain c) (__hint c) (__as_class c)
    (__tz_aware c) (__must_use_master c) (__is_command c) (__data c)
    (__datastore c) (__connection_id c) (__retrieved c) (__killed c)
    (__kwargs c).
Definition set_limit (x : Z) (c : Cursor) : Cursor :=
  mkCursor (__id c) (__error c) (__collection c) (__callback c)
    (__processor c) (__spec c) (__fields c) (__skip c) x (__batch_size c)
    (__store c) (__empty c) (__timeout c) (__tailable c) (__snapshot c)
    (__ordering c) (__max_scan c) (__explain c) (__hint c) (__as_class c)
    (__tz_aware c) (__must_use_master c) (__is_command c) (__data c)
    (__datastore c) (__connection_id c) (__retrieved c) (__killed c)
    (__kwargs c).
Definition set_batch_size (x : Z) (c : Cursor) : Cursor :=
  mkCursor (__id c) (__error c) (__collection c) (__callback c)
    (__processor c) (__spec c) (__fields c) (__skip c) (__limit c) x
    (__store c) (__empty c) (__timeout c) (__tailable c) (__snapshot c)
    (__ordering c) (__max_scan c) (__explain c) (__hint c) (__as_class c)
    (__tz_aware c) (__must_use_master c) (__is_command c) (__data c)
    (__datastore c) (__connection_id c) (__retrieved c) (__killed c)
    (__kwargs c).
Definition set_empty (x : bool) (c : Cursor) : Cursor :=
  mkCursor (__id c) (__error c) (__collection c) (__callback c)
    (__processor c) (__spec c) (__fields c) (__skip c) (__limit c)
    (__batch_size c) (__store c) x (__timeout c) (__tailable c) (__snapshot c)
    (__ordering c) (__max_scan c) (__explain c) (__hint c) (__as_class c)
    (__tz_aware c) (__must_use_master c) (__is_command c) (__data c)
    (__datastore c) (__connection_id c) (__retrieved c) (__killed c)
    (__kwargs c).
Definition set_ordering (x : value) (c : Cursor) : Cursor :=
  mkCursor (__id c) (__error c) (__collection c) (__callback c)
    (__processor c) (__spec c) (__fields c) (__skip c) (__limit c)
    (__batch_size c) (__store c) (__empty c) (__timeout c) (__tailable c)
    (__snapshot c) x (__max_scan c) (__explain c) (__hint c) (__as_class c)
    (__tz_aware c) (__must_use_master c) (__is_command c) (__data c)
    (__datastore c) (__connection_id c) (__retrieved c) (__killed c)
    (__kwargs c).
Definition set_max_scan (x : value) (c : Cursor) : Cursor :=
  mkCursor (__id c) (__error c) (__collection c) (__callback c)
    (__processor c) (__spec c) (__fields c) (__skip c) (__limit c)
    (__batch_size c) (__store c) (__empty c) (__timeout c) (__tailable c)
    (__snapshot c) (__ordering c) x (__explain c) (__hint c) (__as_class c)
    (__tz_aware c) (__must_use_master c) (__is_command c) (__data c)
    (__datastore c) (__connection_id c) (__retrieved c) (__killed c)
    (__kwargs c).
Definition set_explain (x : bool) (c : Cursor) : Cursor :=
  mkCursor (__id c) (__error c) (__collection c) (__callback c)
    (__processor c) (__spec c) (__fields c) (__skip c) (__limit c)
    (__batch_size c) (__store c) (__empty c) (__timeout c) (__tailable c)
    (__snapshot c) (__ordering c) (__max_scan c) x (__hint c) (__as_class c)
    (__tz_aware c) (__must_use_master c) (__is_command c) (__data c)
    (__datastore c) (__connection_id c) (__retrieved c) (__killed c)
    (__kwargs c).
Definition set_hint (x : value) (c : Cursor) : Cursor :=
  mkCursor (__id c) (__error c) (__collection c) (__callback c)
    (__processor c) (__spec c) (__fields c) (__skip c) (__limit c)
    (__batch_size c) (__store c) (__empty c) (__timeout c) (__tailable c)
    (__snapshot c) (__ordering c) (__max_scan c) (__explain c) x
    (__as_class c) (__tz_aware c) (__must_use_master c) (__is_command c)
    (__data c) (__datastore c) (__connection_id c) (__retrieved c)
    (__killed c) (__kwargs c).
Definition set_data (x : list value) (c : Cursor) : Cursor :=
  mkCursor (__id c) (__error c) (__collection c) (__callback c)
    (__processor c) (__spec c) (__fields c) (__skip c) (__limit c)
    (__batch_size c) (__store c) (__empty c) (__timeout c) (__tailable c)
    (__snapshot c) (__ordering c) (__max_scan c) (__explain c) (__hint c)
    (__as_class c) (__tz_aware c) (__must_use_master c) (__is_command c) x
    (__datastore c) (__connection_id c) (__retrieved c) (__killed c)
    (__kwargs c).
Definition set_datastore (x : list value) (c : Cursor) : Cursor :=
  mkCursor (__id c) (__error c) (__collection c) (__callback c)
    (__processor c) (__spec c) (__fields c) (__skip c) (__limit c)
    (__batch_size c) (__store c) (__empty c) (__timeout c) (__tailable c)
    (__snapshot c) (__ordering c) (__max_scan c) (__explain c) (__hint c)
    (__as_class c) (__tz_aware c) (__must_use_master c) (__is_command c)
    (__data c) x (__connection_id c) (__retrieved c) (__killed c) (__kwargs c).
Definition set_connection_id (x : value) (c : Cursor) : Cursor :=
  mkCursor (__id c) (__error c) (__collection c) (__callback c)
    (__processor c) (__spec c) (__fields c) (__skip c) (__limit c)
    (__batch_size c) (__store c) (__empty c) (__timeout c) (__tailable c)
    (__snapshot c) (__ordering c) (__max_scan c) (__explain c) (__hint c)
    (__as_class c) (__tz_aware c) (__must_use_master c) (__is_command c)
    (__data c) (__datastore c) x (__retrieved c) (__killed c) (__kwargs c).
Definition set_retrieved (x : Z) (c : Cursor) : Cursor :=
  mkCursor (__id c) (__error c) (__collection c) (__callback c)
    (__processor c) (__spec c) (__fields c) (__skip c) (__limit c)
    (__batch_size c) (__store c) (__empty c) (__timeout c) (__tailable c)
    (__snapshot c) (__ordering c) (__max_scan c) (__explain c) (__hint c)
    (__as_class c) (__tz_aware c) (__must_use_master c) (__is_command c)
    (__data c) (__datastore c) (__connection_id c) x (__killed c) (__kwargs c).
Definition set_killed (x : bool) (c : Cursor) : Cursor :=
  mkCursor (__id c) (__error c) (__collection c) (__callback c)
    (__processor c) (__spec c) (__fields c) (__skip c) (__limit c)
    (__batch_size c) (__store c) (__empty c) (__timeout c) (__tailable c)
    (__snapshot c) (__ordering c) (__max_scan c) (__explain c) (__hint c)
    (__as_class c) (__tz_aware c) (__must_use_master c) (__is_command c)
    (__data c) (__datastore c) (__connection_id c) (__retrieved c) x
    (__kwargs c).

(** ** The monad of methods *)

Record world : Type := mkWorld {
  cur : Cursor;           (* [self] *)
  trace : list event      (* oldest first *)
}.

Definition M (A : Type) : Type := world -> outcome A * world.

Definition ret {A} (a : A) : M A := fun w => (Ok a, w).

Definition bind {A B} (m : M A) (k : A -> M B) : M B :=
  fun w =>
    match m w with
    | (Ok a, w') => k a w'
    | (Raise e, w') => (Raise e, w')
    end.

Definition raise {A} (e : exn) : M A := fun w => (Raise e, w).

Definition self : M Cursor := fun w => (Ok (cur w), w).

Definition assign (f : Cursor -> Cursor) : M unit :=
  fun w => (Ok tt, mkWorld (f (cur w)) (trace w)).

Definition emit (e : event) : M unit :=
  fun w => (Ok tt, mkWorld (cur w) (trace w ++ [e])).

Definition lift {A} (o : outcome A) : M A :=
  match o with Ok a => ret a | Raise e => raise e end.

Definition pass : M unit := ret tt.

Notation "x <- m ;; k" := (bind m (fun x => k))
  (at level 61, m at next level, right associativity).
Notation "m ;; k" := (bind m (fun _ => k))
  (at level 61, right associativity).

(** [for r in l: body(r)] *)
Fixpoint for_each {A} (l : list A) (body : A -> M unit) : M unit :=
  match l with
  | [] => pass
  | r :: l' => body r ;; for_each l' body
  end.

(** The name of the type of an object, as an error message prints it. *)
Definition type_name (v : value) : string :=
  match v with
  | VNone => "NoneType"
  | VBool _ => "bool"
  | VInt _ => "int"
  | VLong _ => "long"
  | VStr _ => "str"
  | VCode _ => "Code"
  | VList _ => "list"
  | VDict _ => "dict"
  | VExc (TypeError _) => "TypeError"
  | VExc (ValueError _) => "ValueError"
  | VExc AssertionError => "AssertionError"
  | VExc (InvalidOperation _) => "InvalidOperation"
  | VExc (AutoReconnect _) => "AutoReconnect"
  | VExc (OperationFailure _) => "OperationFailure"
  | VExc (OtherException cls _) => cls
  | VObj _ => "object"
  end.

(** Of the objects of the model, only the opaque ones can be called: the
    user's callback is one, [None] (the default of [callback]) is not. *)
Definition callable (f : value) : bool :=
  match f with VObj _ => true | _ => false end.

Definition not_callable (f : value) : exn :=
  TypeError ("'" ++ type_name f ++ "' object is not callable").

(** [f(arg)] for the cursor's callback: the call is recorded; calling what
    is not callable raises [TypeError]. *)
Definition call (f arg : value) : M unit :=
  if callable f then emit (call_callback f arg)
  else raise (not_callable f).

(** ** Methods of [Cursor] *)

Definition _QUERY_OPTIONS (k : string) : Z :=
  if String.eqb k "tailable_cursor" then 2
  else if String.eqb k "slave_okay" then 4
  else if String.eqb k "oplog_replay" then 8
  else if String.eqb k "no_timeout" then 16
  else 0.

(** What a call of [loop] leaves behind when it returns.  Python's [loop]
    returns [None]; the status says which continuation, if any, is now
    registered with the transport. *)
Inductive status : Type :=
| Awaiting (m : message)   (* [m] was sent; [mod_callback] will be invoked *)
| Delivered                (* [self.__callback] was invoked *)
| Idle.                    (* neither *)

Section Methods.
Context `{Externals}.

(** [Cursor.__init__].  Arguments in the order of the signature. *)
Definition __init__ (collection : Collection)
    (callback processor spec fields skip limit timeout snapshot tailable
     sort max_scan as_class store _must_use_master _is_command : value)
    (kwargs : dict) : outcome Cursor :=
  let spec := if is_None spec then VDict [] else spec in
  if negb (isinstance_dict spec) then
    Raise (TypeError "spec must be an instance of dict")
  else if negb (isinstance_int skip) then
    Raise (TypeError "skip must be an instance of int")
  else if negb (isinstance_int limit) then
    Raise (TypeError "limit must be an instance of int")
  else if negb (isinstance_bool timeout) then
    Raise (TypeError "timeout must be an instance of bool")
  else if negb (isinstance_bool snapshot) then
    Raise (TypeError "snapshot must be an instance of bool")
  else if negb (isinstance_bool tailable) then
    Raise (TypeError "tailable must be an instance of bool")
  else
    match
      (if negb (is_None fields) then
         let fields :=
           if negb (truthy fields) then VDict [("_id", VInt 1)] else fields in
         if negb (isinstance_dict fields) then _fields_list_to_dict fields
         else Ok fields
       else Ok fields)
    with
    | Raise e => Raise e
    | Ok fields =>
        let as_class :=
          if is_None as_class then document_class collection else as_class in
        match
          (if truthy sort then
             match _index_document sort with
             | Ok d => Ok (if truthy d then d else VNone)
             | Raise e => Raise e
             end
           else Ok VNone)
        with
        | Raise e => Raise e
        | Ok ordering =>
            Ok {| __id := None;
                  __error := None;
                  __collection := collection;
                  __callback := callback;
                  __processor := processor;
                  __spec := dict_of spec;
                  __fields := fields;
                  __skip := int_of skip;
                  __limit := int_of limit;
                  __batch_size := 0;
                  __store := store;
                  __empty := false;
                  __timeout := bool_of timeout;
                  __tailable := bool_of tailable;
                  __snapshot := bool_of snapshot;
                  __ordering := ordering;
                  __max_scan := max_scan;
                  __explain := false;
                  __hint := VNone;
                  __as_class := as_class;
                  __tz_aware := tz_aware collection;
                  __must_use_master := _must_use_master;
                  __is_command := _is_command;
                  __data := [];
                  __datastore := [];
                  __connection_id := VNone;
                  __retrieved := 0;
                  __killed := false;
                  __kwargs := kwargs |}
        end
    end.

(** [Cursor.__die] *)
Definition __die : M unit :=
  c <- self ;;
  (match __id c with
   | Some i =>
       if negb (i =? 0) && negb (__killed c) then
         if negb (is_None (__connection_id c)) then
           emit (close_cursor i (Some (__connection_id c)))
         else
           emit (close_cursor i None)
       else pass
   | None => pass
   end) ;;
  assign (set_killed true).

(** [Cursor.__del__] *)
Definition __del__ : M unit :=
  c <- self ;;
  match __id c with
  | Some i => if negb (i =? 0) && negb (__killed c) then __die else pass
  | None => pass
  end.

(** [Cursor.rewind] *)
Definition rewind : M Cursor :=
  assign (set_data []) ;;
  assign (set_id None) ;;
  assign (set_connection_id VNone) ;;
  assign (set_retrieved 0) ;;
  assign (set_killed false) ;;
  self.

(** [Cursor.clone].  The constructor is called with eight positional
    arguments, which bind the first eight parameters of [__init__]; the
    others take their defaults.  The copy is a new object: the result is the
    copy, and the world of the original is not touched. *)
Definition clone (c : Cursor) : outcome Cursor :=
  match
    __init__ (__collection c)
      (VDict (__spec c))            (* callback *)
      (__fields c)                  (* processor *)
      (VInt (__skip c))             (* spec *)
      (VInt (__limit c))            (* fields *)
      (VBool (__timeout c))         (* skip *)
      (VBool (__tailable c))        (* limit *)
      (VBool (__snapshot c))        (* timeout *)
      (VBool false) (VBool false) VNone VNone VNone (VBool true)
      (VBool false) (VBool false) []
  with
  | Raise e => Raise e
  | Ok copy =>
      let copy := set_ordering (__ordering c) copy in
      let copy := set_explain (__explain c) copy in
      let copy := set_hint (__hint c) copy in
      let copy := set_batch_size (__batch_size c) copy in
      Ok copy
  end.

(** [Cursor.__query_spec].  When the local [spec] is the cursor's own
    dictionary (a command, or a filter that already has [$query]), the item
    assignments change the cursor's dictionary too. *)
Definition __query_spec : M dict :=
  c <- self ;;
  let fresh := negb (truthy (__is_command c))
               && negb (dict_mem "$query" (__spec c)) in
  let spec := __spec c in
  let spec := if fresh then [("$query", VDict (__spec c))] else spec in
  let spec := if truthy (__ordering c)
              then dict_set "$orderby" (__ordering c) spec else spec in
  let spec := if __explain c
              then dict_set "$explain" (VBool true) spec else spec in
  let spec := if truthy (__hint c)
              then dict_set "$hint" (__hint c) spec else spec in
  let spec := if __snapshot c
              then dict_set "$snapshot" (VBool true) spec else spec in
  let spec := if truthy (__max_scan c)
              then dict_set "$maxScan" (__max_scan c) spec else spec in
  (if fresh then pass else assign (set_spec spec)) ;;
  ret spec.

(** [Cursor.__query_options] *)
Definition __query_options : M Z :=
  c <- self ;;
  let options := 0 in
  let options := if __tailable c
                 then Z.lor options (_QUERY_OPTIONS "tailable_cursor")
                 else options in
  let options := if slave_okay (__collection c)
                 then Z.lor options (_QUERY_OPTIONS "slave_okay")
                 else options in
  let options := if negb (__timeout c)
                 then Z.lor options (_QUERY_OPTIONS "no_timeout")
                 else options in
  ret options.

(** [Cursor.__check_okay_to_chain] *)
Definition __check_okay_to_chain : M unit :=
  c <- self ;;
  if negb (__retrieved c =? 0)
     || match __id c with Some _ => true | None => false end
  then raise (InvalidOperation "cannot set options after executing query")
  else pass.

(** [Cursor.limit] *)
Definition limit (limit : value) : M Cursor :=
  if negb (isinstance_int limit) then
    raise (TypeError "limit must be an int")
  else
    __check_okay_to_chain ;;
    assign (set_empty false) ;;
    assign (set_limit (int_of limit)) ;;
    self.

(** [Cursor.batch_size] *)
Definition batch_size (batch_size : value) : M Cursor :=
  if negb (isinstance_int batch_size) then
    raise (TypeError "batch_size must be an int")
  else if int_of batch_size <? 0 then
    raise (ValueError "batch_size must be >= 0")
  else
    __check_okay_to_chain ;;
    assign (set_batch_size
              (if int_of batch_size =? 1 then 2 else int_of batch_size)) ;;
    self.

(** [Cursor.skip] *)
Definition skip (skip : value) : M Cursor :=
  if negb (isinstance_int_long skip) then
    raise (TypeError "skip must be an int")
  else
    __check_okay_to_chain ;;
    assign (set_skip (int_of skip)) ;;
    self.

(** [Cursor.max_scan] *)
Definition max_scan (max_scan : value) : M Cursor :=
  __check_okay_to_chain ;;
  assign (set_max_scan max_scan) ;;
  self.

(** [Cursor.sort] *)
Definition sort (key_or_list direction : value) : M Cursor :=
  __check_okay_to_chain ;;
  keys <- lift (_index_list key_or_list direction) ;;
  ordering <- lift (_index_document keys) ;;
  assign (set_ordering ordering) ;;
  self.

(** [Cursor.hint] *)
Definition hint (index : value) : M Cursor :=
  __check_okay_to_chain ;;
  if is_None index then
    assign (set_hint VNone) ;;
    self
  else
    h <- lift (_index_document index) ;;
    assign (set_hint h) ;;
    self.

(** [Cursor.where] *)
Definition where_ (code : value) : M Cursor :=
  __check_okay_to_chain ;;
  code <- (if negb (isinstance_Code code) then lift (Code code)
           else ret code) ;;
  c <- self ;;
  assign (set_spec (dict_set "$where" code (__spec c))) ;;
  self.

(** [Cursor.__send_message]: hands [message] to the transport, which keeps
    [mod_callback] (below) as the continuation of the request. *)
Definition __send_message (message : message) : M status :=
  emit (send_message_with_response message) ;;
  ret (Awaiting message).

(** [Cursor._refresh] *)
Definition _refresh : M status :=
  c <- self ;;
  match __id c with
  | None =>
      options <- __query_options ;;
      spec <- __query_spec ;;
      __send_message
        (query options (full_name (__collection c)) (__skip c) (__limit c)
               spec (__fields c))
  | Some i =>
      if negb (i =? 0) then           (* Get More *)
        let limit :=
          if negb (__limit c =? 0) then
            let limit := __limit c - __retrieved c in
            if negb (__batch_size c =? 0)
            then Z.min limit (__batch_size c)
            else limit
          else __batch_size c in
        __send_message (get_more (full_name (__collection c)) limit i)
      else ret Idle
  end.

(** The body of the [for] statement of [loop]. *)
Definition loop_body (r : value) : M unit :=
  c <- self ;;
  let collection := __collection c in
  let processor := __processor c in
  let r := _fix_outgoing r collection in
  let r := if truthy processor then call_processor processor r collection
           else r in
  if truthy (__store c) && truthy r then
    c <- self ;;
    assign (set_datastore (__datastore c ++ [r]))
  else pass.

(** [Cursor.loop] *)
Definition loop : M status :=
  c <- self ;;
  match __error c with
  | Some e =>
      call (__callback c) (VExc e) ;;
      ret Delivered
  | None =>
      (if negb (Nat.eqb (List.length (__data c)) 0) then
         for_each (__data c) loop_body ;;
         assign (set_data [])
       else pass) ;;
      c <- self ;;
      if negb (__killed c) then _refresh
      else
        call (__callback c) (VList (__datastore c)) ;;
        ret Delivered
  end.

(** [Cursor.explain] *)
Definition explain : M status :=
  assign (set_explain true) ;;
  c <- self ;;
  (if negb (__limit c =? 0) then assign (set_limit (- Z.abs (__limit c)))
   else pass) ;;
  loop.

(** The value of the local [die_now] of [mod_callback], computed from the
    attributes after the reply has been stored. *)
Definition die_now (c : Cursor) : bool :=
  match __id c with
  | Some i =>
      (i =? 0) || Nat.eqb (List.length (__data c)) 0
      || (negb (__limit c =? 0) && negb (i =? 0)
          && (__limit c <=? __retrieved c))
  | None => false
  end.

(** The part of [mod_callback] that handles a response which is not an
    exception instance, up to the call of [callback]. *)
Definition apply_response (connection_id : value) (response : raw) : M unit :=
  assign (set_connection_id connection_id) ;;
  c <- self ;;
  response <-
    match
      _unpack_response response (__id c) (__as_class c) (__tz_aware c)
    with
    | Ok r => ret r
    | Raise e =>
        if is_AutoReconnect e then emit disconnect ;; raise e
        else raise e
    end ;;
  assign (set_id (Some (cursor_id response))) ;;
  c <- self ;;
  (if negb (__tailable c) then
     if starting_from response =? __retrieved c then pass
     else raise AssertionError
   else pass) ;;
  c <- self ;;
  assign (set_retrieved (__retrieved c + number_returned response)) ;;
  assign (set_data (data response)) ;;
  c <- self ;;
  if die_now c then __die else pass.

(** [mod_callback], the closure of [__send_message]; [callback] is the
    argument of [__send_message]. *)
Definition mod_callback (callback : M status) (response : response)
  : M status :=
  match response with
  | RException e => assign (set_error (Some e))
  | RTuple connection_id response => apply_response connection_id response
  | RRaw response => apply_response VNone response
  end ;;
  callback.

(** ** The event loop *)

(** The transport invokes the continuation of the outstanding request with
    each response of the script in turn.  [_refresh] always passes [loop] as
    the callback.  A run stops when the script is used up, when no request
    is outstanding, or when an exception leaves a continuation. *)
Fixpoint resume (responses : list response) (st : outcome status * world)
  : outcome status * world :=
  match responses with
  | [] => st
  | r :: responses' =>
      match st with
      | (Ok (Awaiting _), w) => resume responses' (mod_callback loop r w)
      | _ => st
      end
  end.

(** The application calls [loop]; the transport then delivers [responses]. *)
Definition drive (responses : list response) (w : world)
  : outcome status * world :=
  resume responses (loop w).

End Methods.

(** ** Vocabulary of the properties *)

Section Vocabulary.
Context `{Externals}.

(** Execution has begun: the condition [__check_okay_to_chain] tests. *)
Definition executed (c : Cursor) : bool :=
  negb (__retrieved c =? 0)
  || match __id c with Some _ => true | None => false end.

(** A call of one of the configuration methods. *)
Inductive chain_call : Type :=
| call_limit (limit : value)
| call_skip (skip : value)
| call_batch_size (batch_size : value)
| call_max_scan (max_scan : value)
| call_sort (key_or_list direction : value)
| call_hint (index : value)
| call_where (code : value).

Definition invoke (m : chain_call) : M Cursor :=
  match m with
  | call_limit v => limit v
  | call_skip v => skip v
  | call_batch_size v => batch_size v
  | call_max_scan v => max_scan v
  | call_sort k d => sort k d
  | call_hint v => hint v
  | call_where v => where_ v
  end.

Definition succeeds {A} (o : outcome A) : bool :=
  match o with Ok _ => true | Raise _ => false end.

(** The argument passes the checks a method makes before it consults
    [__check_okay_to_chain]. *)
Definition passes_entry_checks (m : chain_call) : bool :=
  match m with
  | call_limit v => isinstance_int v
  | call_skip v => isinstance_int_long v
  | call_batch_size v => isinstance_int v && negb (int_of v <? 0)
  | _ => true
  end.

(** The argument passes the conversions a method makes after it consulted
    [__check_okay_to_chain]. *)
Definition passes_conversions (m : chain_call) : bool :=
  match m with
  | call_sort k d =>
      match _index_list k d with
      | Ok keys => succeeds (_index_document keys)
      | Raise _ => false
      end
  | call_hint v => is_None v || succeeds (_index_document v)
  | call_where v => isinstance_Code v || succeeds (Code v)
  | _ => true
  end.

Definition argument_accepted (m : chain_call) : bool :=
  passes_entry_checks m && passes_conversions m.

(** The configuration of a cursor: every attribute except the iteration
    state ([__data], [__id], [__connection_id], [__retrieved], [__killed]),
    the sink [__datastore] and the stored [__error]. *)
Definition same_configuration (c c' : Cursor) : Prop :=
  __collection c' = __collection c /\ __callback c' = __callback c
  /\ __processor c' = __processor c /\ __spec c' = __spec c
  /\ __fields c' = __fields c /\ __skip c' = __skip c
  /\ __limit c' = __limit c /\ __batch_size c' = __batch_size c
  /\ __store c' = __store c /\ __empty c' = __empty c
  /\ __timeout c' = __timeout c /\ __tailable c' = __tailable c
  /\ __snapshot c' = __snapshot c /\ __ordering c' = __ordering c
  /\ __max_scan c' = __max_scan c /\ __explain c' = __explain c
  /\ __hint c' = __hint c /\ __as_class c' = __as_class c
  /\ __tz_aware c' = __tz_aware c
  /\ __must_use_master c' = __must_use_master c
  /\ __is_command c' = __is_command c /\ __kwargs c' = __kwargs c.

(** What is left of a run when [loop] hands [arg] to the callback of [c]:
    the call is recorded and the run has delivered, or the callback is not
    callable and the [TypeError] leaves [loop]. *)
Definition delivery (c : Cursor) (arg : value) (t : list event)
  : outcome status * world :=
  if callable (__callback c) then
    (Ok Delivered, mkWorld c (t ++ [call_callback (__callback c) arg]))
  else (Raise (not_callable (__callback c)), mkWorld c t).

(** The raw response a transport response carries, if any. *)
Definition payload (r : response) : option raw :=
  match r with
  | RException _ => None
  | RTuple _ x => Some x
  | RRaw x => Some x
  end.

(** The connection identifier a transport response carries ([None] when it
    is not a pair). *)
Definition connection_of (r : response) : value :=
  match r with
  | RTuple connection_id _ => connection_id
  | _ => VNone
  end.

(** The cursor once [mod_callback] has stored a decoded reply. *)
Definition received (connection_id : value) (rep : reply) (c : Cursor)
  : Cursor :=
  set_data (data rep)
    (set_retrieved (__retrieved c + number_returned rep)
       (set_id (Some (cursor_id rep))
          (set_connection_id connection_id c))).

(** The server cursor id is set and nonzero and the cursor is not killed:
    the condition [__die] and [__del__] test. *)
Definition live (c : Cursor) : bool :=
  match __id c with
  | Some i => negb (i =? 0) && negb (__killed c)
  | None => false
  end.

(** The connection argument of [close_cursor] as [__die] passes it. *)
Definition affinity (c : Cursor) : option value :=
  if is_None (__connection_id c) then None else Some (__connection_id c).

(** [n] disposals in a row. *)
Fixpoint dispose (n : nat) (w : world) : world :=
  match n with
  | O => w
  | S n' => dispose n' (snd (__die w))
  end.

(** The documents of a batch that [loop] appends to the sink of [c]. *)
Fixpoint retained (c : Cursor) (batch : list value) : list value :=
  match batch with
  | [] => []
  | r :: batch' =>
      let r := _fix_outgoing r (__collection c) in
      let r := if truthy (__processor c)
               then call_processor (__processor c) r (__collection c)
               else r in
      if truthy (__store c) && truthy r then r :: retained c batch'
      else retained c batch'
  end.

(** The cursor ids of the kill-cursor requests of a trace. *)
Fixpoint kills (t : list event) : list Z :=
  match t with
  | [] => []
  | close_cursor i _ :: t' => i :: kills t'
  | _ :: t' => kills t'
  end.

(** The messages of a trace that were handed to the transport. *)
Fixpoint requests (t : list event) : list message :=
  match t with
  | [] => []
  | send_message_with_response m :: t' => m :: requests t'
  | _ :: t' => requests t'
  end.

(** The number of documents a request asks for. *)
Definition requested (m : message) : Z :=
  match m with
  | query _ _ _ n _ _ => n
  | get_more _ n _ => n
  end.

(** A response honours the request [m] it answers, decoded by cursor [c]:
    it holds as many documents as it reports, and no more than were asked
    for (a request for 0 documents leaves the number to the server). *)
Definition honours (m : message) (c : Cursor) (r : response) : Prop :=
  match payload r with
  | None => True
  | Some x =>
      match _unpack_response x (__id c) (__as_class c) (__tz_aware c) with
      | Raise _ => True
      | Ok rep =>
          number_returned rep = Z.of_nat (List.length (data rep))
          /\ (requested m <> 0 ->
              Z.of_nat (List.length (data rep)) <= Z.abs (requested m))
      end
  end.

(** Every response the run consumes honours the request outstanding when
    it arrives. *)
Fixpoint honoured (responses : list response) (st : outcome status * world)
  : Prop :=
  match responses with
  | [] => True
  | r :: responses' =>
      match st with
      | (Ok (Awaiting m), w) =>
          honours m (cur w) r /\ honoured responses' (mod_callback loop r w)
      | _ => True
      end
  end.

(** The cursor once [loop] has emptied its buffer into the sink. *)
Definition drained (c : Cursor) : Cursor :=
  if negb (Nat.eqb (List.length (__data c)) 0)
  then set_data [] (set_datastore (__datastore c ++ retained c (__data c)) c)
  else c.

(** The sink of [c'] is the sink of [c] with documents added at the end. *)
Definition sink_extends (c c' : Cursor) : Prop :=
  exists new, __datastore c' = __datastore c ++ new.

(** The invariant of a run under the limit [L]: the documents in the sink
    and in the buffer were all counted in [retrieved], which is within the
    limit; and a cursor that is not killed either has not queried yet or
    still has documents to ask for. *)
Definition within_limit (L : Z) (c : Cursor) : Prop :=
  L <> 0 /\ __limit c = L /\ 0 <= __batch_size c
  /\ 0 <= __retrieved c <= Z.abs L
  /\ Z.of_nat (List.length (__datastore c))
     + Z.of_nat (List.length (__data c)) <= __retrieved c
  /\ (__killed c = false ->
      match __id c with
      | None => __retrieved c = 0
      | Some i => i <> 0 -> 0 < L /\ __retrieved c < L
      end).

(** The outstanding request asks for some documents, and for no more than
    the limit leaves. *)
Definition fits (L : Z) (c : Cursor) (m : message) : Prop :=
  requested m <> 0 /\ __retrieved c + Z.abs (requested m) <= Z.abs L.

Definition run_within_limit (L : Z) (st : outcome status * world) : Prop :=
  match st with
  | (Ok (Awaiting m), w) => within_limit L (cur w) /\ fits L (cur w) m
  | (Ok _, w) => within_limit L (cur w)
  | (Raise _, w) =>
      Z.of_nat (List.length (__datastore (cur w))) <= Z.abs L
  end.

(** A cursor as [__init__] leaves it, as far as iteration goes. *)
Definition unqueried (c : Cursor) : Prop :=
  __id c = None /\ __retrieved c = 0 /\ __killed c = false
  /\ __data c = [] /\ __datastore c = [] /\ __error c = None.

End Vocabulary.

(** ** A loopback transport and sample data *)

(** Raw responses that are their own decoding; documents pass unchanged. *)
Definition loopback : Externals := {|
  raw := outcome reply;
  _unpack_response := fun r _ _ _ => r;
  _fix_outgoing := fun r _ => r;
  _index_list := fun k d => Ok (VList [VList [k; d]]);
  _index_document := fun keys => Ok keys;
  _fields_list_to_dict := fun _ => Ok (VDict []);
  Code := fun c =>
    match c with
    | VStr s => Ok (VCode s)
    | _ => Raise (TypeError "code must be an instance of basestring")
    end;
  call_processor := fun _ r _ => r
|}.

Definition testcollection : Collection :=
  {| full_name := "testdb.testcollection";
     name := "testcollection";
     document_class := VObj 0;
     tz_aware := false;
     slave_okay := false |}.

(** The user's callback. *)
Definition handle : value := VObj 1.

(** [Cursor(testcollection, callback=handle, limit=n)] *)
Definition sample_cursor (n : Z) : Cursor :=
  {| __id := None; __error := None; __collection := testcollection;
     __callback := handle; __processor := VNone; __spec := [];
     __fields := VNone; __skip := 0; __limit := n; __batch_size := 0;
     __store := VBool true; __empty := false; __timeout := true;
     __tailable := false; __snapshot := false; __ordering := VNone;
     __max_scan := VNone; __explain := false; __hint := VNone;
     __as_class := VObj 0; __tz_aware := false;
     __must_use_master := VBool false; __is_command := VBool false;
     __data := []; __datastore := []; __connection_id := VNone;
     __retrieved := 0; __killed := false; __kwargs := [] |}.

Definition sample_world (n : Z) : world := mkWorld (sample_cursor n) [].

(** The same cursor made without a callback: the attribute holds the
    default of the constructor, [None]. *)
Definition silent_cursor (n : Z) : Cursor :=
  {| __id := None; __error := None; __collection := testcollection;
     __callback := VNone; __processor := VNone; __spec := [];
     __fields := VNone; __skip := 0; __limit := n; __batch_size := 0;
     __store := VBool true; __empty := false; __timeout := true;
     __tailable := false; __snapshot := false; __ordering := VNone;
     __max_scan := VNone; __explain := false; __hint := VNone;
     __as_class := VObj 0; __tz_aware := false;
     __must_use_master := VBool false; __is_command := VBool false;
     __data := []; __datastore := []; __connection_id := VNone;
     __retrieved := 0; __killed := false; __kwargs := [] |}.

(** A cursor in the middle of its iteration: five documents retrieved and
    drained, server cursor 123 alive. *)
Definition document (n : Z) : value := VDict [("_id", VInt n)].

Fixpoint documents (first : Z) (count : nat) : list value :=
  match count with
  | O => []
  | S count' => document first :: documents (first + 1) count'
  end.

Definition started_cursor (n : Z) : Cursor :=
  set_datastore (documents 0 5)
    (set_retrieved 5 (set_id (Some 123) (sample_cursor n))).

Definition started_world (n : Z) : world := mkWorld (started_cursor n) [].

(** A reply of [count] documents numbered from [first], from a server whose
    cursor is [id], and the transport response that carries it. *)
Definition sample_reply (id first : Z) (count : nat) : reply :=
  {| cursor_id := id; starting_from := first;
     number_returned := Z.of_nat count;
     data := documents first count |}.

Definition batch (id first : Z) (count : nat) : @response loopback :=
  @RRaw loopback (Ok (sample_reply id first count)).

(** A response whose decoding fails because the connection was lost. *)
Definition not_master : @response loopback :=
  @RRaw loopback (Raise (AutoReconnect "master has changed")).

(** ** Further methods of [Cursor] *)

(** [Cursor.alive] *)
Definition alive (c : Cursor) : bool :=
  negb (Nat.eqb (List.length (__data c)) 0) || negb (__killed c).

(** [d[k]]; [None] when the key is missing. *)
Fixpoint dict_get (k : string) (d : dict) : option value :=
  match d with
  | [] => None
  | (k', v) :: d' => if String.eqb k k' then Some v else dict_get k d'
  end.

(** [d.get(k, default)] *)
Definition dict_get_default (k : string) (default : value) (d : dict)
  : value :=
  match dict_get k d with
  | Some v => v
  | None => default
  end.

(** The exception of [d[k]] for a missing key. *)
Definition KeyError (k : string) : exn := OtherException "KeyError" k.

(** [v == s] for a string literal [s]. *)
Definition eq_str (v : value) (s : string) : bool :=
  match v with
  | VStr t | VCode t => String.eqb t s
  | _ => false
  end.

Definition isinstance_basestring (v : value) : bool :=
  match v with VStr _ | VCode _ => true | _ => false end.

(** A call of [Database.command]:
    [command(name, callback=..., value=..., allowable_errors=..., **kwargs)].
    [command_callback] is the callable the continuation given to [command]
    will invoke; [allowable_errors] is [None] when the argument is not
    passed. *)
Record command_call : Type := mkCommand {
  command_name : string;
  command_callback : value;
  command_value : string;
  allowable_errors : option (list string);
  command_kwargs : dict
}.

(** The built-in [int], taken as given. *)
Class Builtins : Type := {
  int : value -> outcome value
}.

(** The callback of [count] and [distinct]: the argument, or the cursor's
    own callback, which must then be set. *)
Definition resolve_callback (callback : value) : M value :=
  c <- self ;;
  if is_None callback then
    if is_None (__callback c) then raise AssertionError
    else ret (__callback c)
  else ret callback.

(** [Cursor.count], up to the call of [database.command]. *)
Definition count (callback with_limit_and_skip : value) : M command_call :=
  c <- self ;;
  let command := [("query", VDict (__spec c)); ("fields", __fields c)] in
  callback <- resolve_callback callback ;;
  let command :=
    if truthy with_limit_and_skip then
      let command :=
        if negb (__limit c =? 0)
        then dict_set "limit" (VInt (__limit c)) command else command in
      if negb (__skip c =? 0)
      then dict_set "skip" (VInt (__skip c)) command else command
    else command in
  ret {| command_name := "count";
         command_callback := callback;
         command_value := name (__collection c);
         allowable_errors := Some ["ns missing"];
         command_kwargs := command |}.

(** [mod_callback], the closure of [count]; [r] is the reply document. *)
Definition count_mod_callback `{Builtins} (callback : value) (r : dict)
  : M unit :=
  if eq_str (dict_get_default "errmsg" (VStr "") r) "ns missing" then
    emit (call_callback callback (VInt 0))
  else
    match dict_get "n" r with
    | None => raise (KeyError "n")
    | Some n =>
        n <- lift (int n) ;;
        emit (call_callback callback n)
    end.

(** [Cursor.distinct], up to the call of [database.command]. *)
Definition distinct (key callback : value) : M command_call :=
  if negb (isinstance_basestring key) then
    raise (TypeError "key must be an instance of basestring")
  else
    c <- self ;;
    let options := [("key", key)] in
    let options :=
      if truthy (VDict (__spec c))
      then dict_set "query" (VDict (__spec c)) options else options in
    callback <- resolve_callback callback ;;
    ret {| command_name := "distinct";
           command_callback := callback;
           command_value := name (__collection c);
           allowable_errors := None;
           command_kwargs := options |}.

(** [mod_callback], the closure of [distinct]. *)
Definition distinct_mod_callback (callback : value) (resp : dict) : M unit :=
  match dict_get "values" resp with
  | None => raise (KeyError "values")
  | Some values => emit (call_callback callback values)
  end.

(** ** Further vocabulary *)

(** The arguments [__init__] type-checks are of the types it asks for. *)
Definition well_typed (spec skip limit timeout snapshot tailable : value)
  : bool :=
  (is_None spec || isinstance_dict spec) && isinstance_int skip
  && isinstance_int limit && isinstance_bool timeout
  && isinstance_bool snapshot && isinstance_bool tailable.

(** What [__query_spec] and [__query_options] compute for a cursor, and the
    query message [_refresh] builds from them. *)
Definition wire_spec (c : Cursor) : dict :=
  match fst (__query_spec (mkWorld c [])) with
  | Ok spec => spec
  | Raise _ => []
  end.

Definition option_flags (c : Cursor) : Z :=
  match fst (__query_options (mkWorld c [])) with
  | Ok options => options
  | Raise _ => 0
  end.

Definition initial_query (c : Cursor) : message :=
  query (option_flags c) (full_name (__collection c)) (__skip c) (__limit c)
        (wire_spec c) (__fields c).

(** The configuration of [c'] is that of [c]: every attribute other than
    the iteration state, the sink and the stored error is the same, except
    that the filter may have changed as long as the spec computed from it
    has not. *)
Definition keeps_configuration (c c' : Cursor) : Prop :=
  __collection c' = __collection c /\ __callback c' = __callback c
  /\ __processor c' = __processor c /\ wire_spec c' = wire_spec c
  /\ __fields c' = __fields c /\ __skip c' = __skip c
  /\ __limit c' = __limit c /\ __batch_size c' = __batch_size c
  /\ __store c' = __store c /\ __empty c' = __empty c
  /\ __timeout c' = __timeout c /\ __tailable c' = __tailable c
  /\ __snapshot c' = __snapshot c /\ __ordering c' = __ordering c
  /\ __max_scan c' = __max_scan c /\ __explain c' = __explain c
  /\ __hint c' = __hint c /\ __as_class c' = __as_class c
  /\ __tz_aware c' = __tz_aware c
  /\ __must_use_master c' = __must_use_master c
  /\ __is_command c' = __is_command c /\ __kwargs c' = __kwargs c.

(** The number of requests a state of a run has outstanding. *)
Definition outstanding (st : outcome status * world) : nat :=
  match fst st with
  | Ok (Awaiting _) => 1%nat
  | _ => 0%nat
  end.

(** Two calls of the same configuration method. *)
Definition same_method (m1 m2 : chain_call) : bool :=
  match m1, m2 with
  | call_limit _, call_limit _ => true
  | call_skip _, call_skip _ => true
  | call_batch_size _, call_batch_size _ => true
  | call_max_scan _, call_max_scan _ => true
  | call_sort _ _, call_sort _ _ => true
  | call_hint _, call_hint _ => true
  | call_where _, call_where _ => true
  | _, _ => false
  end.

Section Sink_vocabulary.
Context `{Externals}.

(** What [loop] makes of one buffered document before it decides whether to
    keep it. *)
Definition outgoing (c : Cursor) (r : value) : value :=
  let r := _fix_outgoing r (__collection c) in
  if truthy (__processor c)
  then call_processor (__processor c) r (__collection c)
  else r.

(** The documents a response puts into the buffer of the cursor of [w]:
    those of a reply that decodes and passes the [starting_from] check. *)
Definition stored_batch (r : response) (w : world) : list value :=
  match payload r with
  | None => []
  | Some x =>
      match _unpack_response x (__id (cur w)) (__as_class (cur w))
              (__tz_aware (cur w)) with
      | Raise _ => []
      | Ok rep =>
          if __tailable (cur w)
             || (starting_from rep =? __retrieved (cur w))
          then data rep else []
      end
  end.

(** The documents that arrive during a run, in order of arrival. *)
Fixpoint arrivals (responses : list response) (st : outcome status * world)
  : list value :=
  match responses with
  | [] => []
  | r :: responses' =>
      match st with
      | (Ok (Awaiting _), w) =>
          stored_batch r w ++ arrivals responses' (mod_callback loop r w)
      | _ => []
      end
  end.

(** The number of responses a run consumes. *)
Fixpoint consumed (responses : list response) (st : outcome status * world)
  : nat :=
  match responses with
  | [] => O
  | r :: responses' =>
      match st with
      | (Ok (Awaiting _), w) =>
          S (consumed responses' (mod_callback loop r w))
      | _ => O
      end
  end.

End Sink_vocabulary.

(** A sample [int]: it converts the numbers of the model and refuses
    everything else. *)
Definition sample_builtins : Builtins := {|
  int := fun v =>
    match v with
    | VInt z | VLong z => Ok (VInt z)
    | VBool b => Ok (VInt (if b then 1 else 0))
    | _ => Raise (TypeError "int() argument is not a number")
    end
|}.

(** * Properties *)

(** Unfolding of the monad's operations. *)
Ltac run_monad :=
  unfold __check_okay_to_chain, __send_message, bind, ret, self, assign,
    emit, raise, pass, lift; simpl.

(** ** Plumbing: assignments and the fields they leave alone *)

Lemma world_eta (w : world) : mkWorld (cur w) (trace w) = w.
Proof. destruct w; reflexivity. Qed.

Lemma check_okay_when_not_executed (w : world) :
  executed (cur w) = false -> __check_okay_to_chain w = (Ok tt, w).
Proof.
  unfold executed, __check_okay_to_chain, bind, self, pass, ret.
  intros ->. reflexivity.
Qed.

Lemma check_okay_when_executed (w : world) :
  executed (cur w) = true ->
  __check_okay_to_chain w
  = (Raise (InvalidOperation "cannot set options after executing query"), w).
Proof.
  unfold executed, __check_okay_to_chain, bind, self, raise.
  intros ->. reflexivity.
Qed.

(** ** clone *)

(** C1 (defect of the code).  [clone] is documented to return a new cursor
    with the options of the original.  It calls the constructor with the
    positional arguments of PyMongo's signature, but [__init__] here has
    [callback] and [processor] before [spec]: the integer [__skip] is bound
    to [spec], and the constructor rejects it.  For every cursor, [clone]
    raises [TypeError] and returns no cursor at all. *)
Theorem clone_raises_TypeError `{Externals} (c : Cursor) :
  clone c = Raise (TypeError "spec must be an instance of dict").
Proof. reflexivity. Qed.

(** ** batch_size *)



(** ** _refresh *)

(** C9.  For a live server cursor [i], [_refresh] hands the transport one
    get-more for [i].  The number of documents it asks for is
    [min(limit - retrieved, batch_size)] when both [limit] and [batch_size]
    are nonzero, [limit - retrieved] when only [limit] is, and [batch_size]
    (0 included) when [limit] is 0. *)
Theorem get_more_requested_count (w : world) (i : Z) :
  __id (cur w) = Some i -> i <> 0 ->
  exists n,
    _refresh w
    = (Ok (Awaiting (get_more (full_name (__collection (cur w))) n i)),
       mkWorld (cur w)
         (trace w ++ [send_message_with_response
                        (get_more (full_name (__collection (cur w))) n i)]))
    /\ (__limit (cur w) <> 0 -> __batch_size (cur w) <> 0 ->
        n = Z.min (__limit (cur w) - __retrieved (cur w))
                  (__batch_size (cur w)))
    /\ (__limit (cur w) <> 0 -> __batch_size (cur w) = 0 ->
        n = __limit (cur w) - __retrieved (cur w))
    /\ (__limit (cur w) = 0 -> n = __batch_size (cur w)).
Proof.
  intros Hid Hi. unfold _refresh. run_monad. rewrite Hid.
  destruct (Z.eqb_spec i 0) as [|_]; [contradiction |]. simpl.
  eexists. split; [reflexivity |].
  destruct (Z.eqb_spec (__limit (cur w)) 0),
           (Z.eqb_spec (__batch_size (cur w)) 0); simpl;
    repeat split; intros; congruence.
Qed.

Lemma get_more_requested_count_witness :
  exists n,
    _refresh (started_world 7)
    = (Ok (Awaiting (get_more "testdb.testcollection" n 123)),
       mkWorld (started_cursor 7)
         [send_message_with_response
            (get_more "testdb.testcollection" n 123)])
    /\ n = 2.
Proof.
  destruct (get_more_requested_count (started_world 7) 123) as [n [Hrun Hn]].
  - reflexivity.
  - lia.
  - exists n. split; [exact Hrun |].
    apply (proj1 (proj2 Hn)); [simpl; lia | reflexivity].
Defined.

(** ** __die and __del__ *)

Lemma kills_app (t t' : list event) : kills (t ++ t') = kills t ++ kills t'.
Proof.
  induction t as [| e t IH]; simpl; [reflexivity |].
  destruct e; simpl; rewrite IH; reflexivity.
Qed.

Lemma die_live (w : world) (i : Z) :
  __id (cur w) = Some i -> i <> 0 -> __killed (cur w) = false ->
  __die w
  = (Ok tt, mkWorld (set_killed true (cur w))
                    (trace w ++ [close_cursor i (affinity (cur w))])).
Proof.
  intros Hid Hi Hk. unfold __die, affinity, bind, self. rewrite Hid, Hk.
  destruct (Z.eqb_spec i 0); [contradiction |]. simpl.
  destruct (is_None (__connection_id (cur w))); reflexivity.
Qed.

Lemma die_not_live (w : world) :
  live (cur w) = false ->
  __die w = (Ok tt, mkWorld (set_killed true (cur w)) (trace w)).
Proof.
  unfold live, __die, bind, self. intros Hl.
  destruct (__id (cur w)) as [i |]; [rewrite Hl |];
    reflexivity.
Qed.

Lemma del_cases (w : world) :
  __del__ w = if live (cur w) then __die w else (Ok tt, w).
Proof.
  unfold __del__, live, bind, self.
  destruct (__id (cur w)) as [i |]; [| reflexivity].
  destruct (negb (i =? 0) && negb (__killed (cur w))); reflexivity.
Qed.

Lemma live_cases (c : Cursor) :
  live c = false
  <-> (__id c = None \/ __id c = Some 0 \/ __killed c = true).
Proof.
  unfold live. destruct (__id c) as [i |].
  - destruct (Z.eqb_spec i 0), (__killed c); simpl; split; intros Hc;
      try reflexivity; try discriminate; try tauto; try (subst; tauto).
    destruct Hc as [Hc | [Hc | Hc]]; congruence.
  - tauto.
Qed.

Lemma die_killed (w : world) :
  fst (__die w) = Ok tt /\ __killed (cur (snd (__die w))) = true.
Proof.
  destruct (live (cur w)) eqn:Hl.
  - unfold live in Hl. destruct (__id (cur w)) as [i |] eqn:Hid;
      [| discriminate].
    apply andb_true_iff in Hl. destruct Hl as [Hi Hk].
    apply negb_true_iff in Hi, Hk. apply Z.eqb_neq in Hi.
    rewrite (die_live w i Hid Hi Hk). split; reflexivity.
  - rewrite (die_not_live w Hl). split; reflexivity.
Qed.

Lemma die_again (w : world) : __killed (cur w) = true -> __die w = (Ok tt, w).
Proof.
  intros Hk. rewrite die_not_live.
  - destruct w as [c t]. destruct c. simpl in *. subst. reflexivity.
  - apply live_cases. right; right. exact Hk.
Qed.

Lemma dispose_killed (n : nat) (w : world) :
  __killed (cur w) = true -> dispose n w = w.
Proof.
  induction n as [| n IH]; simpl; intros Hk; [reflexivity |].
  rewrite (die_again w Hk). simpl. apply IH, Hk.
Qed.

(** C5.  Disposal ([__die], and [__del__] which calls it) hands the
    connection one [close_cursor] exactly when the server cursor id is set
    and nonzero and the cursor is not yet killed; it hands it nothing when
    the id is unset or 0, or the cursor is already killed.  [__die] leaves
    the cursor killed, so a second disposal changes nothing, and any number
    of disposals of a live cursor [i] adds the single kill of [i]. *)
Theorem kill_cursor_dispatched_once (w : world) :
  let w' := snd (__die w) in
  fst (__die w) = Ok tt
  /\ __killed (cur w') = true
  /\ (forall i, __id (cur w) = Some i -> i <> 0 -> __killed (cur w) = false ->
      trace w' = trace w ++ [close_cursor i (affinity (cur w))]
      /\ forall n, kills (trace (dispose (S n) w)) = kills (trace w) ++ [i])
  /\ (__id (cur w) = None \/ __id (cur w) = Some 0 \/ __killed (cur w) = true
      -> trace w' = trace w /\ forall n, trace (dispose n w) = trace w)
  /\ __die w' = (Ok tt, w')
  /\ __del__ w' = (Ok tt, w')
  /\ trace (snd (__del__ w)) = trace w'
  /\ __del__ (snd (__del__ w)) = (Ok tt, snd (__del__ w)).
Proof.
  intros w'. destruct (die_killed w) as [Hok Hk]. fold w' in Hk.
  split; [exact Hok |]. split; [exact Hk |].
  assert (Hdead : live (cur w') = false).
  { apply live_cases. right; right. exact Hk. }
  split; [| split; [| split; [| split; [| split]]]].
  - intros i Hid Hi Hnk.
    assert (Ht : trace w' = trace w ++ [close_cursor i (affinity (cur w))]).
    { subst w'. rewrite (die_live w i Hid Hi Hnk). reflexivity. }
    split; [exact Ht |].
    intros n. simpl. fold w'. rewrite (dispose_killed n w' Hk).
    rewrite Ht, kills_app. reflexivity.
  - intros Hcase. apply live_cases in Hcase.
    assert (Ht : trace w' = trace w).
    { subst w'. rewrite (die_not_live w Hcase). reflexivity. }
    split; [exact Ht |].
    intros [| n]; simpl; [reflexivity |]. fold w'.
    rewrite (dispose_killed n w' Hk). exact Ht.
  - apply die_again, Hk.
  - rewrite del_cases, Hdead. reflexivity.
  - rewrite del_cases. destruct (live (cur w)) eqn:Hl; [reflexivity |].
    subst w'. rewrite (die_not_live w Hl). reflexivity.
  - rewrite (del_cases w). destruct (live (cur w)) eqn:Hl.
    + fold w'. rewrite del_cases, Hdead. reflexivity.
    + simpl. rewrite del_cases, Hl. reflexivity.
Qed.

Lemma kill_cursor_dispatched_once_witness :
  trace (snd (__die (started_world 0))) = [close_cursor 123 None]
  /\ forall n, kills (trace (dispose (S n) (started_world 0))) = [123].
Proof.
  apply (proj1 (proj2 (proj2
           (kill_cursor_dispatched_once (started_world 0)))) 123).
  - reflexivity.
  - lia.
  - reflexivity.
Defined.

(** ** mod_callback *)

Section Response_applier.
Context `{Externals}.

Lemma mod_callback_payload (k : M status) (r : response) (x : raw)
    (w : world) :
  payload r = Some x ->
  mod_callback k r w
  = match apply_response (connection_of r) x w with
    | (Ok _, w') => k w'
    | (Raise e, w') => (Raise e, w')
    end.
Proof.
  destruct r; simpl; intros Hp; inversion Hp; subst; reflexivity.
Qed.

Lemma apply_response_decoded (conn : value) (x : raw) (rep : reply)
    (w : world) :
  _unpack_response x (__id (cur w)) (__as_class (cur w)) (__tz_aware (cur w))
  = Ok rep ->
  __tailable (cur w) = true \/ starting_from rep = __retrieved (cur w) ->
  apply_response conn x w
  = (if die_now (received conn rep (cur w)) then __die else pass)
      (mkWorld (received conn rep (cur w)) (trace w)).
Proof.
  intros Hdec Hsf. unfold apply_response, bind, self, assign. simpl.
  rewrite Hdec. unfold ret. simpl.
  destruct Hsf as [Ht | Hs].
  - rewrite Ht. reflexivity.
  - rewrite Hs, Z.eqb_refl. destruct (__tailable (cur w)); reflexivity.
Qed.

Lemma apply_response_mismatch (conn : value) (x : raw) (rep : reply)
    (w : world) :
  _unpack_response x (__id (cur w)) (__as_class (cur w)) (__tz_aware (cur w))
  = Ok rep ->
  __tailable (cur w) = false -> starting_from rep <> __retrieved (cur w) ->
  apply_response conn x w
  = (Raise AssertionError,
     mkWorld (set_id (Some (cursor_id rep)) (set_connection_id conn (cur w)))
             (trace w)).
Proof.
  intros Hdec Ht Hs. unfold apply_response, bind, self, assign. simpl.
  rewrite Hdec. unfold ret. simpl. rewrite Ht. simpl.
  destruct (Z.eqb_spec (starting_from rep) (__retrieved (cur w)));
    [contradiction | reflexivity].
Qed.

Lemma apply_response_undecoded (conn : value) (x : raw) (e : exn)
    (w : world) :
  _unpack_response x (__id (cur w)) (__as_class (cur w)) (__tz_aware (cur w))
  = Raise e ->
  apply_response conn x w
  = (Raise e,
     mkWorld (set_connection_id conn (cur w))
             (if is_AutoReconnect e then trace w ++ [disconnect]
              else trace w)).
Proof.
  intros Hdec. unfold apply_response, bind, self, assign. simpl.
  rewrite Hdec. destruct (is_AutoReconnect e); reflexivity.
Qed.

Lemma resume_raised (responses : list response) (e : exn) (w : world) :
  resume responses (Raise e, w) = (Raise e, w).
Proof. destruct responses; reflexivity. Qed.

Lemma resume_delivered (responses : list response) (w : world) :
  resume responses (Ok Delivered, w) = (Ok Delivered, w).
Proof. destruct responses; reflexivity. Qed.

(** Handing a value to the callback ends the run either way: later
    responses are not looked at, the cursor is not touched, and nothing
    but the call itself is recorded. *)
Lemma resume_delivery (responses : list response) (c : Cursor)
    (arg : value) (t : list event) :
  resume responses (delivery c arg t) = delivery c arg t.
Proof.
  unfold delivery. destruct (callable (__callback c));
    [apply resume_delivered | apply resume_raised].
Qed.

Lemma resume_stopped (responses : list response)
    (st : outcome status * world) :
  (forall m, fst st <> Ok (Awaiting m)) -> resume responses st = st.
Proof.
  intros Hst. destruct responses as [| r responses]; [reflexivity |].
  destruct st as [[[m | |] | e] w]; try reflexivity.
  exfalso. exact (Hst m eq_refl).
Qed.

Lemma delivery_cur (c : Cursor) (arg : value) (t : list event) :
  cur (snd (delivery c arg t)) = c.
Proof. unfold delivery. destruct (callable (__callback c)); reflexivity. Qed.

Lemma delivery_not_awaiting (c : Cursor) (arg : value) (t : list event)
    (m : message) :
  fst (delivery c arg t) <> Ok (Awaiting m).
Proof.
  unfold delivery. destruct (callable (__callback c)); discriminate.
Qed.

(** C4.  A decoded reply that passes the [starting_from] check, applied to
    a cursor that is not killed, is stored, and the cursor ends up killed
    if and only if the new server cursor id is 0, or the batch is empty, or
    [limit] is nonzero, the new id is nonzero and [limit] is at most the
    updated [retrieved]; otherwise it stays live. *)
Theorem die_now_iff (w : world) (connection_id : value) (x : raw)
    (rep : reply) :
  __killed (cur w) = false ->
  _unpack_response x (__id (cur w)) (__as_class (cur w)) (__tz_aware (cur w))
  = Ok rep ->
  __tailable (cur w) = true \/ starting_from rep = __retrieved (cur w) ->
  exists w',
    apply_response connection_id x w = (Ok tt, w')
    /\ __id (cur w') = Some (cursor_id rep)
    /\ __retrieved (cur w') = __retrieved (cur w) + number_returned rep
    /\ __data (cur w') = data rep
    /\ __limit (cur w') = __limit (cur w)
    /\ (__killed (cur w') = true <->
        cursor_id rep = 0 \/ data rep = []
        \/ (__limit (cur w') <> 0 /\ cursor_id rep <> 0
            /\ __limit (cur w') <= __retrieved (cur w'))).
Proof.
  intros Hk Hdec Hsf.
  rewrite (apply_response_decoded connection_id x rep w Hdec Hsf).
  set (c1 := received connection_id rep (cur w)).
  assert (Hcond : die_now c1 = true <->
            cursor_id rep = 0 \/ data rep = []
            \/ (__limit (cur w) <> 0 /\ cursor_id rep <> 0
                /\ __limit (cur w)
                   <= __retrieved (cur w) + number_returned rep)).
  { unfold die_now, c1. simpl.
    destruct (Z.eqb_spec (cursor_id rep) 0) as [Hz | Hz]; simpl;
      [tauto |].
    destruct (data rep) as [| d l]; simpl; [tauto |].
    destruct (Z.eqb_spec (__limit (cur w)) 0) as [Hl | Hl]; simpl.
    - split; [discriminate |]. intros [? | [? | [? _]]];
        [contradiction | discriminate | contradiction].
    - destruct (Z.leb_spec (__limit (cur w))
                  (__retrieved (cur w) + number_returned rep)).
      + split; [| reflexivity]. intros _. right; right. tauto.
      + split; [discriminate |]. intros [? | [? | [_ [_ ?]]]];
          [contradiction | discriminate | lia]. }
  destruct (die_now c1) eqn:Hd.
  - destruct (die_killed (mkWorld c1 (trace w))) as [Hok Hkilled].
    destruct (__die (mkWorld c1 (trace w))) as [o w'] eqn:Hdie.
    simpl in Hok, Hkilled. subst o. exists w'.
    assert (Hc : cur w' = set_killed true c1).
    { destruct (live c1) eqn:Hl.
      - unfold live in Hl. destruct (__id c1) as [i |] eqn:Hid;
          [| discriminate].
        apply andb_true_iff in Hl. destruct Hl as [Hi Hnk].
        apply negb_true_iff in Hi, Hnk. apply Z.eqb_neq in Hi.
        rewrite (die_live (mkWorld c1 (trace w)) i Hid Hi Hnk) in Hdie.
        inversion Hdie. reflexivity.
      - rewrite (die_not_live (mkWorld c1 (trace w)) Hl) in Hdie.
        inversion Hdie. reflexivity. }
    rewrite Hc. simpl. repeat split; try reflexivity.
    + intros _. apply Hcond. reflexivity.
  - exists (mkWorld c1 (trace w)). simpl. repeat split; try reflexivity.
    + intros Hkk. rewrite Hk in Hkk. discriminate.
    + intros Hc. apply Hcond in Hc. discriminate.
Qed.

(** C6.  For a cursor that is not tailable, a decoded reply whose
    [starting_from] differs from [retrieved] makes [mod_callback] fail with
    [AssertionError]: nothing is sent again, nothing is counted or
    buffered, the callback is not invoked, and the run is over whatever the
    transport delivers next; a reply whose [starting_from] equals
    [retrieved] passes.  For a tailable cursor the comparison is not made:
    every [starting_from] passes, and the outcome does not depend on it. *)
Theorem starting_from_checked_unless_tailable (w : world) (r : response)
    (x : raw) (rep : reply) :
  payload r = Some x ->
  _unpack_response x (__id (cur w)) (__as_class (cur w)) (__tz_aware (cur w))
  = Ok rep ->
  (__tailable (cur w) = false -> starting_from rep <> __retrieved (cur w) ->
   exists w',
     mod_callback loop r w = (Raise AssertionError, w')
     /\ trace w' = trace w
     /\ __retrieved (cur w') = __retrieved (cur w)
     /\ __data (cur w') = __data (cur w)
     /\ __datastore (cur w') = __datastore (cur w)
     /\ __error (cur w') = __error (cur w)
     /\ forall responses,
         resume responses (mod_callback loop r w) = (Raise AssertionError, w'))
  /\ (__tailable (cur w) = false -> starting_from rep = __retrieved (cur w) ->
      exists w', apply_response (connection_of r) x w = (Ok tt, w'))
  /\ (__tailable (cur w) = true ->
      (exists w', apply_response (connection_of r) x w = (Ok tt, w'))
      /\ forall x' rep',
          _unpack_response x' (__id (cur w)) (__as_class (cur w))
            (__tz_aware (cur w)) = Ok rep' ->
          cursor_id rep' = cursor_id rep ->
          number_returned rep' = number_returned rep ->
          data rep' = data rep ->
          apply_response (connection_of r) x' w
          = apply_response (connection_of r) x w).
Proof.
  intros Hp Hdec.
  assert (Hpass : __tailable (cur w) = true
                  \/ starting_from rep = __retrieved (cur w) ->
                  exists w',
                    apply_response (connection_of r) x w = (Ok tt, w')).
  { intros Hsf.
    rewrite (apply_response_decoded (connection_of r) x rep w Hdec Hsf).
    destruct (die_now (received (connection_of r) rep (cur w))).
    - destruct (die_killed
                  (mkWorld (received (connection_of r) rep (cur w)) (trace w)))
        as [Hok _].
      destruct (__die _) as [o w'']. simpl in Hok. subst o.
      exists w''. reflexivity.
    - eexists. reflexivity. }
  split; [| split].
  - intros Ht Hs.
    rewrite (mod_callback_payload loop r x w Hp).
    rewrite (apply_response_mismatch (connection_of r) x rep w Hdec Ht Hs).
    eexists. split; [reflexivity |]. simpl.
    repeat split; try reflexivity.
    intros responses. apply resume_raised.
  - intros _ Hs. apply Hpass. right. exact Hs.
  - intros Ht. split; [apply Hpass; left; exact Ht |].
    intros x' rep' Hdec' Hid Hn Hd.
    rewrite (apply_response_decoded (connection_of r) x rep w Hdec
               (or_introl Ht)).
    rewrite (apply_response_decoded (connection_of r) x' rep' w Hdec'
               (or_introl Ht)).
    unfold received. rewrite Hid, Hn, Hd. reflexivity.
Qed.

(** C7 (defect of the code).  When decoding a response raises
    [AutoReconnect], [mod_callback] tells the connection to disconnect and
    raises the exception again: it leaves the continuation towards the
    transport, the cursor's stored error is what it was, the callback is
    not invoked, and the run is over.  Nothing is sent again. *)
Theorem reconnect_error_leaves_continuation (w : world) (r : response)
    (x : raw) (msg : string) :
  payload r = Some x ->
  _unpack_response x (__id (cur w)) (__as_class (cur w)) (__tz_aware (cur w))
  = Raise (AutoReconnect msg) ->
  exists w',
    mod_callback loop r w = (Raise (AutoReconnect msg), w')
    /\ trace w' = trace w ++ [disconnect]
    /\ __error (cur w') = __error (cur w)
    /\ forall responses,
        resume responses (mod_callback loop r w)
        = (Raise (AutoReconnect msg), w').
Proof.
  intros Hp Hdec.
  rewrite (mod_callback_payload loop r x w Hp).
  rewrite (apply_response_undecoded (connection_of r) x _ w Hdec). simpl.
  eexists. split; [reflexivity |]. simpl. repeat split.
  intros responses. apply resume_raised.
Qed.

(** The sibling path: an exception instance handed over by the transport is
    stored, and the call of [loop] that follows hands it to the callback
    (a [TypeError] if the callback cannot be called); nothing is sent and
    the run is over. *)
Lemma transport_exception_delivered (w : world) (e : exn) :
  mod_callback loop (RException e) w
  = delivery (set_error (Some e) (cur w)) (VExc e) (trace w)
  /\ forall responses,
      resume responses (mod_callback loop (RException e) w)
      = mod_callback loop (RException e) w.
Proof.
  assert (Hrun : mod_callback loop (RException e) w
                 = delivery (set_error (Some e) (cur w)) (VExc e) (trace w)).
  { unfold mod_callback, loop, bind, assign, self, delivery, call. simpl.
    destruct (callable (__callback (cur w))); reflexivity. }
  split; [exact Hrun |].
  intros responses. rewrite Hrun. apply resume_delivery.
Qed.

End Response_applier.

(** ** The chain API *)

Section Chain_api.
Context `{Externals}.

(** C2, as the code has it.  A configuration method called with an
    argument that passes the method's own checks ([limit]: an int; [skip]:
    an int or long; [batch_size]: an int that is not negative) on a cursor
    whose execution has begun raises [InvalidOperation] and leaves the
    cursor as it was.  Called on a cursor with [retrieved == 0] and no
    server cursor id, with an argument that also passes the conversions of
    [sort], [hint] and [where], it succeeds, returns the cursor and sends
    nothing; the cursor can still be configured afterwards. *)
Theorem chain_call_guarded (m : chain_call) (w : world) :
  (executed (cur w) = true -> passes_entry_checks m = true ->
   invoke m w
   = (Raise (InvalidOperation "cannot set options after executing query"), w))
  /\ (executed (cur w) = false -> argument_accepted m = true ->
      exists w',
        invoke m w = (Ok (cur w'), w')
        /\ trace w' = trace w
        /\ executed (cur w') = false).
Proof.
  split.
  - intros Hex Harg.
    destruct m; simpl in *; unfold limit, skip, batch_size, max_scan, sort,
      hint, where_.
    + rewrite Harg. simpl. unfold bind.
      rewrite (check_okay_when_executed w Hex). reflexivity.
    + rewrite Harg. simpl. unfold bind.
      rewrite (check_okay_when_executed w Hex). reflexivity.
    + apply andb_true_iff in Harg. destruct Harg as [Hty Hneg].
      rewrite Hty. apply negb_true_iff in Hneg. rewrite Hneg. simpl.
      unfold bind. rewrite (check_okay_when_executed w Hex). reflexivity.
    + unfold bind. rewrite (check_okay_when_executed w Hex). reflexivity.
    + unfold bind. rewrite (check_okay_when_executed w Hex). reflexivity.
    + unfold bind. rewrite (check_okay_when_executed w Hex). reflexivity.
    + unfold bind. rewrite (check_okay_when_executed w Hex). reflexivity.
  - intros Hex Harg. unfold argument_accepted in Harg.
    apply andb_true_iff in Harg. destruct Harg as [Hentry Hconv].
    destruct m; simpl in *; unfold limit, skip, batch_size, max_scan, sort,
      hint, where_.
    + rewrite Hentry. simpl. unfold bind.
      rewrite (check_okay_when_not_executed w Hex). simpl.
      eexists. split; [reflexivity |]. split; [reflexivity | exact Hex].
    + rewrite Hentry. simpl. unfold bind.
      rewrite (check_okay_when_not_executed w Hex). simpl.
      eexists. split; [reflexivity |]. split; [reflexivity | exact Hex].
    + apply andb_true_iff in Hentry. destruct Hentry as [Hty Hneg].
      rewrite Hty. apply negb_true_iff in Hneg. rewrite Hneg. simpl.
      unfold bind. rewrite (check_okay_when_not_executed w Hex). simpl.
      eexists. split; [reflexivity |]. split; [reflexivity | exact Hex].
    + unfold bind. rewrite (check_okay_when_not_executed w Hex). simpl.
      eexists. split; [reflexivity |]. split; [reflexivity | exact Hex].
    + unfold bind. rewrite (check_okay_when_not_executed w Hex).
      destruct (_index_list key_or_list direction) as [keys |];
        [| discriminate].
      simpl.
      destruct (_index_document keys) as [ordering |]; [| discriminate].
      simpl.
      eexists. split; [reflexivity |]. split; [reflexivity | exact Hex].
    + unfold bind. rewrite (check_okay_when_not_executed w Hex).
      destruct (is_None index); simpl.
      * eexists. split; [reflexivity |]. split; [reflexivity | exact Hex].
      * simpl in Hconv. destruct (_index_document index) as [h |];
          [| discriminate]. simpl.
        eexists. split; [reflexivity |]. split; [reflexivity | exact Hex].
    + unfold bind. rewrite (check_okay_when_not_executed w Hex).
      destruct (isinstance_Code code); simpl.
      * eexists. split; [reflexivity |]. split; [reflexivity | exact Hex].
      * simpl in Hconv. destruct (Code code) as [c |]; [| discriminate].
        simpl.
        eexists. split; [reflexivity |]. split; [reflexivity | exact Hex].
Qed.

End Chain_api.

(** ** loop and _refresh *)

Section Driver.
Context `{Externals}.

Lemma set_datastore_same (c : Cursor) : set_datastore (__datastore c) c = c.
Proof. destruct c; reflexivity. Qed.

Lemma set_spec_same (c : Cursor) : set_spec (__spec c) c = c.
Proof. destruct c; reflexivity. Qed.

Lemma retained_frame (c c' : Cursor) (l : list value) :
  __collection c' = __collection c -> __processor c' = __processor c ->
  __store c' = __store c ->
  retained c' l = retained c l.
Proof.
  intros Hc Hp Hs. induction l as [| r l IH]; simpl; [reflexivity |].
  rewrite Hc, Hp, Hs, IH. reflexivity.
Qed.

Lemma retained_length (c : Cursor) (l : list value) :
  (List.length (retained c l) <= List.length l)%nat.
Proof.
  induction l as [| r l IH]; simpl; [lia |].
  destruct (truthy (__store c) && truthy _); simpl; lia.
Qed.

Lemma for_each_loop_body (l : list value) (w : world) :
  for_each l loop_body w
  = (Ok tt,
     mkWorld (set_datastore (__datastore (cur w) ++ retained (cur w) l)
                (cur w))
             (trace w)).
Proof.
  revert w. induction l as [| r l IH]; intros w; simpl.
  - rewrite app_nil_r, set_datastore_same, world_eta. reflexivity.
  - unfold bind at 1. unfold loop_body at 1. unfold bind, self.
    destruct (truthy (__store (cur w)) && truthy _) eqn:Hkeep.
    + unfold assign. rewrite IH. simpl.
      rewrite <- app_assoc. simpl.
      rewrite (retained_frame (cur w)) by reflexivity. reflexivity.
    + unfold pass, ret. rewrite IH. reflexivity.
Qed.

(** [loop], case by case. *)
Lemma loop_cases (w : world) :
  loop w
  = match __error (cur w) with
    | Some e => delivery (cur w) (VExc e) (trace w)
    | None =>
        if negb (__killed (cur w)) then
          _refresh (mkWorld (drained (cur w)) (trace w))
        else
          delivery (drained (cur w))
            (VList (__datastore (drained (cur w)))) (trace w)
    end.
Proof.
  unfold loop, bind at 1, self at 1.
  destruct (__error (cur w)) as [e |].
  { unfold delivery, call, bind, emit, raise, ret.
    destruct (callable (__callback (cur w))); [| rewrite world_eta];
      reflexivity. }
  unfold bind at 1, drained.
  destruct (negb (Nat.eqb (List.length (__data (cur w))) 0)).
  - unfold bind at 1. rewrite for_each_loop_body. unfold assign. simpl.
    unfold bind, self. simpl.
    destruct (negb (__killed (cur w))); [reflexivity |].
    unfold delivery, call. simpl.
    destruct (callable (__callback (cur w))); reflexivity.
  - unfold pass, ret, bind, self. rewrite world_eta.
    destruct (negb (__killed (cur w))); [reflexivity |].
    unfold delivery, call, emit, raise.
    destruct (callable (__callback (cur w))); [| rewrite world_eta];
      reflexivity.
Qed.

(** [_refresh] sends at most one message, changes no attribute except
    possibly [__spec], and asks for what [limit], [retrieved] and
    [batch_size] determine. *)
Lemma refresh_cases (w : world) :
  exists s st,
    _refresh w
    = (Ok st,
       mkWorld (set_spec s (cur w))
               (trace w ++ match st with
                           | Awaiting m => [send_message_with_response m]
                           | _ => []
                           end))
    /\ match __id (cur w) with
       | None =>
           exists o q, st = Awaiting (query o (full_name (__collection (cur w)))
                                        (__skip (cur w)) (__limit (cur w)) q
                                        (__fields (cur w)))
       | Some i =>
           if i =? 0 then st = Idle
           else exists n,
               st = Awaiting (get_more (full_name (__collection (cur w))) n i)
               /\ n = (if negb (__limit (cur w) =? 0) then
                         if negb (__batch_size (cur w) =? 0)
                         then Z.min (__limit (cur w) - __retrieved (cur w))
                                    (__batch_size (cur w))
                         else __limit (cur w) - __retrieved (cur w)
                       else __batch_size (cur w))
       end.
Proof.
  unfold _refresh, bind at 1, self at 1.
  destruct (__id (cur w)) as [i |].
  - destruct (Z.eqb_spec i 0); simpl.
    + exists (__spec (cur w)), Idle.
      rewrite set_spec_same, app_nil_r, world_eta.
      split; reflexivity.
    + unfold __send_message, bind, emit, ret. simpl.
      exists (__spec (cur w)). eexists (Awaiting _). rewrite set_spec_same.
      split; [reflexivity |]. eexists. split; reflexivity.
  - unfold __query_options, __query_spec, __send_message, bind, self, ret,
      emit. simpl.
    destruct (negb (truthy (__is_command (cur w)))
              && negb (dict_mem "$query" (__spec (cur w)))); simpl.
    + exists (__spec (cur w)). eexists (Awaiting _). rewrite set_spec_same.
      split; [reflexivity |]. eexists. eexists. reflexivity.
    + eexists. eexists (Awaiting _). split; [reflexivity |].
      eexists. eexists. reflexivity.
Qed.

(** *** The sink only grows *)

Lemma sink_extends_refl (c : Cursor) : sink_extends c c.
Proof. exists []. rewrite app_nil_r. reflexivity. Qed.

Lemma sink_extends_trans (c1 c2 c3 : Cursor) :
  sink_extends c1 c2 -> sink_extends c2 c3 -> sink_extends c1 c3.
Proof.
  intros [n1 H1] [n2 H2]. exists (n1 ++ n2).
  rewrite H2, H1, app_assoc. reflexivity.
Qed.

Lemma drained_sink (c : Cursor) :
  __datastore (drained c) = __datastore c ++ retained c (__data c).
Proof.
  unfold drained. destruct (__data c) as [| r l]; simpl.
  - rewrite app_nil_r. reflexivity.
  - reflexivity.
Qed.

Lemma refresh_sink (w : world) :
  __datastore (cur (snd (_refresh w))) = __datastore (cur w).
Proof.
  destruct (refresh_cases w) as [s [st [Heq _]]]. rewrite Heq. reflexivity.
Qed.

Lemma loop_sink (w : world) :
  __datastore (cur (snd (loop w)))
  = match __error (cur w) with
    | Some _ => __datastore (cur w)
    | None => __datastore (cur w) ++ retained (cur w) (__data (cur w))
    end.
Proof.
  rewrite loop_cases.
  destruct (__error (cur w)); [rewrite delivery_cur; reflexivity |].
  destruct (negb (__killed (cur w))).
  - rewrite refresh_sink. simpl. apply drained_sink.
  - rewrite delivery_cur. apply drained_sink.
Qed.

Lemma loop_extends (w : world) : sink_extends (cur w) (cur (snd (loop w))).
Proof.
  unfold sink_extends. rewrite loop_sink.
  destruct (__error (cur w)).
  - exists []. rewrite app_nil_r. reflexivity.
  - eexists. reflexivity.
Qed.

Lemma die_cur (w : world) :
  fst (__die w) = Ok tt /\ cur (snd (__die w)) = set_killed true (cur w).
Proof.
  destruct (live (cur w)) eqn:Hl.
  - unfold live in Hl. destruct (__id (cur w)) as [i |] eqn:Hid;
      [| discriminate].
    apply andb_true_iff in Hl. destruct Hl as [Hi Hk].
    apply negb_true_iff in Hi, Hk. apply Z.eqb_neq in Hi.
    rewrite (die_live w i Hid Hi Hk). split; reflexivity.
  - rewrite (die_not_live w Hl). split; reflexivity.
Qed.

(** A decoded reply that passes the check: the attributes afterwards. *)
Lemma apply_response_stored (conn : value) (x : raw) (rep : reply)
    (w : world) :
  _unpack_response x (__id (cur w)) (__as_class (cur w)) (__tz_aware (cur w))
  = Ok rep ->
  __tailable (cur w) = true \/ starting_from rep = __retrieved (cur w) ->
  exists w',
    apply_response conn x w = (Ok tt, w')
    /\ cur w' = (if die_now (received conn rep (cur w))
                 then set_killed true (received conn rep (cur w))
                 else received conn rep (cur w)).
Proof.
  intros Hdec Hsf. rewrite (apply_response_decoded conn x rep w Hdec Hsf).
  destruct (die_now (received conn rep (cur w))).
  - destruct (die_cur (mkWorld (received conn rep (cur w)) (trace w)))
      as [Hok Hc].
    destruct (__die _) as [o w']. simpl in Hok, Hc. subst o.
    exists w'. split; [reflexivity | exact Hc].
  - eexists. split; reflexivity.
Qed.

Lemma apply_response_sink (conn : value) (x : raw) (w : world) :
  __datastore (cur (snd (apply_response conn x w))) = __datastore (cur w)
  /\ __error (cur (snd (apply_response conn x w))) = __error (cur w).
Proof.
  destruct (_unpack_response x (__id (cur w)) (__as_class (cur w))
              (__tz_aware (cur w))) as [rep | e] eqn:Hdec.
  - destruct (__tailable (cur w)) eqn:Ht.
    + destruct (apply_response_stored conn x rep w Hdec (or_introl Ht))
        as [w' [Heq Hc]].
      rewrite Heq. simpl. rewrite Hc.
      destruct (die_now _); split; reflexivity.
    + destruct (Z.eq_dec (starting_from rep) (__retrieved (cur w)))
        as [Hs | Hs].
      * destruct (apply_response_stored conn x rep w Hdec (or_intror Hs))
          as [w' [Heq Hc]].
        rewrite Heq. simpl. rewrite Hc.
        destruct (die_now _); split; reflexivity.
      * rewrite (apply_response_mismatch conn x rep w Hdec Ht Hs).
        split; reflexivity.
  - rewrite (apply_response_undecoded conn x e w Hdec). split; reflexivity.
Qed.

Lemma mod_callback_extends (r : response) (w : world) :
  sink_extends (cur w) (cur (snd (mod_callback loop r w))).
Proof.
  destruct (payload r) as [x |] eqn:Hp.
  - rewrite (mod_callback_payload loop r x w Hp).
    destruct (apply_response_sink (connection_of r) x w) as [Hs _].
    destruct (apply_response (connection_of r) x w) as [[[] | e] w'];
      simpl in Hs.
    + eapply sink_extends_trans; [| apply loop_extends].
      exists []. rewrite app_nil_r. exact Hs.
    + exists []. rewrite app_nil_r. exact Hs.
  - destruct r; try discriminate. unfold mod_callback, bind, assign.
    eapply sink_extends_trans; [| apply loop_extends].
    exists []. simpl. rewrite app_nil_r. reflexivity.
Qed.

Lemma resume_extends (responses : list response)
    (st : outcome status * world) :
  sink_extends (cur (snd st)) (cur (snd (resume responses st))).
Proof.
  revert st. induction responses as [| r responses IH]; intros st; simpl.
  - apply sink_extends_refl.
  - destruct st as [[[m | |] | e] w]; simpl; try apply sink_extends_refl.
    eapply sink_extends_trans; [apply (mod_callback_extends r w) |].
    apply IH.
Qed.

Lemma drive_extends (responses : list response) (w : world) :
  sink_extends (cur w) (cur (snd (drive responses w))).
Proof.
  unfold drive. eapply sink_extends_trans; [apply loop_extends |].
  apply resume_extends.
Qed.

(** *** rewind *)


(** *** The limit bounds the sink when the server honours the requests *)

Lemma within_limit_sink (L : Z) (c : Cursor) :
  within_limit L c -> Z.of_nat (List.length (__datastore c)) <= Z.abs L.
Proof. unfold within_limit. intros [_ [_ [_ [Hr [Hlen _]]]]]. lia. Qed.

Lemma run_within_limit_sink (L : Z) (st : outcome status * world) :
  run_within_limit L st ->
  Z.of_nat (List.length (__datastore (cur (snd st)))) <= Z.abs L.
Proof.
  destruct st as [[[m | |] | e] w]; simpl.
  - intros [Hin _]. apply within_limit_sink, Hin.
  - apply within_limit_sink.
  - apply within_limit_sink.
  - tauto.
Qed.

Lemma drained_within_limit (L : Z) (c : Cursor) :
  within_limit L c -> within_limit L (drained c).
Proof.
  unfold within_limit, drained.
  destruct (__data c) as [| r l] eqn:Hdata; [simpl; rewrite Hdata; tauto |].
  intros [HL [Hlim [Hbs [Hret [Hlen Hlive]]]]].
  cbn [negb Nat.eqb List.length __limit __batch_size __retrieved __datastore
       __data __killed __id set_data set_datastore].
  repeat split; try assumption; try lia.
  rewrite List.length_app.
  pose proof (retained_length c (r :: l)) as Hkeep.
  cbn [List.length] in Hlen, Hkeep |- *. lia.
Qed.

Lemma drained_state (c : Cursor) :
  __id (drained c) = __id c /\ __killed (drained c) = __killed c
  /\ __retrieved (drained c) = __retrieved c
  /\ __limit (drained c) = __limit c
  /\ __batch_size (drained c) = __batch_size c.
Proof.
  unfold drained. destruct (__data c); simpl; repeat split; reflexivity.
Qed.

Lemma delivery_within_limit (L : Z) (c : Cursor) (arg : value)
    (t : list event) :
  within_limit L c -> run_within_limit L (delivery c arg t).
Proof.
  intros Hin. unfold delivery. destruct (callable (__callback c)); simpl.
  - exact Hin.
  - apply within_limit_sink, Hin.
Qed.

Lemma loop_within_limit (L : Z) (w : world) :
  within_limit L (cur w) -> run_within_limit L (loop w).
Proof.
  intros Hin. rewrite loop_cases.
  destruct (__error (cur w)); [apply delivery_within_limit, Hin |].
  pose proof (drained_within_limit L _ Hin) as Hd.
  destruct (__killed (cur w)) eqn:Hk; simpl;
    [apply delivery_within_limit, Hd |].
  destruct (refresh_cases (mkWorld (drained (cur w)) (trace w)))
    as [s [st [Heq Hst]]].
  rewrite Heq. simpl in Hst.
  destruct (drained_state (cur w)) as [Eid [Ekill [Eret [Elim Ebs]]]].
  assert (Hin' : within_limit L (set_spec s (drained (cur w)))).
  { exact Hd. }
  destruct Hd as [HL [Hlim [Hbs [Hret [Hlen Hlive]]]]].
  destruct st as [m | |]; simpl; try exact Hin'.
  split; [exact Hin' |]. unfold fits.
  rewrite Ekill, Hk in Hlive. specialize (Hlive eq_refl).
  destruct (__id (drained (cur w))) as [i |].
  - destruct (Z.eqb_spec i 0) as [| Hi]; [discriminate |].
    destruct Hst as [n [Hm Hn]]. inversion Hm; subst m. simpl.
    specialize (Hlive Hi).
    rewrite Hlim in Hn.
    destruct (Z.eqb_spec L 0); [contradiction |]. simpl in Hn.
    destruct (Z.eqb_spec (__batch_size (drained (cur w))) 0);
      simpl in Hn; lia.
  - destruct Hst as [o [q Hm]]. inversion Hm; subst m. simpl. lia.
Qed.

Lemma stored_within_limit (L : Z) (m : message) (conn : value) (rep : reply)
    (c : Cursor) :
  within_limit L c -> fits L c m ->
  number_returned rep = Z.of_nat (List.length (data rep)) ->
  (requested m <> 0 ->
   Z.of_nat (List.length (data rep)) <= Z.abs (requested m)) ->
  within_limit L (if die_now (received conn rep c)
                  then set_killed true (received conn rep c)
                  else received conn rep c).
Proof.
  intros [HL [Hlim [Hbs [Hret [Hlen Hlive]]]]] [Hreq Hfit] Hnr Hcount.
  specialize (Hcount Hreq).
  destruct (die_now (received conn rep c)) eqn:Hd;
    unfold within_limit; simpl; repeat split; try assumption; try lia.
  all: unfold die_now in Hd; simpl in Hd;
    apply orb_false_iff in Hd; destruct Hd as [Hd Hl];
    rewrite Hlim in Hl;
    destruct (Z.eqb_spec L 0); [contradiction |];
    destruct (Z.eqb_spec (cursor_id rep) 0); [contradiction |];
    simpl in Hl; apply Z.leb_gt in Hl; lia.
Qed.

Lemma mod_callback_within_limit (L : Z) (m : message) (r : response)
    (w : world) :
  within_limit L (cur w) -> fits L (cur w) m -> honours m (cur w) r ->
  run_within_limit L (mod_callback loop r w).
Proof.
  intros Hin Hfit Hhon. unfold honours in Hhon.
  destruct (payload r) as [x |] eqn:Hp.
  - rewrite (mod_callback_payload loop r x w Hp).
    destruct (_unpack_response x (__id (cur w)) (__as_class (cur w))
                (__tz_aware (cur w))) as [rep | e] eqn:Hdec.
    + destruct Hhon as [Hnr Hcount].
      assert (Hstored : __tailable (cur w) = true
                        \/ starting_from rep = __retrieved (cur w) ->
                run_within_limit L
                  (let (o, w') := apply_response (connection_of r) x w in
                   match o with
                   | Ok _ => loop w'
                   | Raise e => (Raise e, w')
                   end)).
      { intros Hsf.
        destruct (apply_response_stored (connection_of r) x rep w Hdec Hsf)
          as [w2 [Heq Hc]].
        rewrite Heq. apply loop_within_limit. rewrite Hc.
        apply (stored_within_limit L m); assumption. }
      destruct (__tailable (cur w)) eqn:Ht;
        [apply Hstored; left; reflexivity |].
      destruct (Z.eq_dec (starting_from rep) (__retrieved (cur w)))
        as [Hs | Hs]; [apply Hstored; right; exact Hs |].
      rewrite (apply_response_mismatch _ x rep w Hdec Ht Hs). simpl.
      apply within_limit_sink, Hin.
    + rewrite (apply_response_undecoded _ x e w Hdec). simpl.
      apply within_limit_sink, Hin.
  - destruct r; try discriminate. unfold mod_callback, bind, assign.
    apply loop_within_limit. exact Hin.
Qed.

Lemma resume_within_limit (L : Z) (responses : list response)
    (st : outcome status * world) :
  run_within_limit L st -> honoured responses st ->
  run_within_limit L (resume responses st).
Proof.
  revert st. induction responses as [| r responses IH]; intros st Hin Hhon;
    simpl; [exact Hin |].
  destruct st as [[[m | |] | e] w]; simpl in *; try exact Hin.
  destruct Hin as [Hin Hfit]. destruct Hhon as [Hr Hrest].
  apply IH; [| exact Hrest].
  apply (mod_callback_within_limit L m); assumption.
Qed.

Lemma drive_within_limit (responses : list response) (w : world) :
  __limit (cur w) <> 0 -> 0 <= __batch_size (cur w) -> unqueried (cur w) ->
  honoured responses (loop w) ->
  Z.of_nat (List.length (__datastore (cur (snd (drive responses w)))))
  <= Z.abs (__limit (cur w)).
Proof.
  intros HL Hbs [Hid [Hret [Hk [Hdata [Hsink Herr]]]]] Hhon.
  apply run_within_limit_sink. unfold drive.
  apply resume_within_limit; [| exact Hhon].
  apply loop_within_limit.
  unfold within_limit. rewrite Hid, Hret, Hdata, Hsink. simpl.
  repeat split; try assumption; try lia.
Qed.

(** *** A run kills at most once *)

Lemma delivery_kills (c : Cursor) (arg : value) (t : list event) :
  kills (trace (snd (delivery c arg t))) = kills t.
Proof.
  unfold delivery. destruct (callable (__callback c)); simpl;
    [| reflexivity].
  rewrite kills_app. simpl. apply app_nil_r.
Qed.

Lemma loop_kills (w : world) :
  kills (trace (snd (loop w))) = kills (trace w).
Proof.
  rewrite loop_cases. destruct (__error (cur w)).
  - apply delivery_kills.
  - destruct (negb (__killed (cur w))).
    + destruct (refresh_cases (mkWorld (drained (cur w)) (trace w)))
        as [s [st [Heq _]]].
      rewrite Heq. simpl. rewrite kills_app.
      destruct st; simpl; apply app_nil_r.
    + apply delivery_kills.
Qed.

(** [loop] on a killed cursor hands the sink to the callback: no request
    is left outstanding, whether or not that call succeeds. *)
Lemma loop_killed_stops (w : world) (m : message) :
  __killed (cur w) = true -> fst (loop w) <> Ok (Awaiting m).
Proof.
  intros Hk. rewrite loop_cases, Hk.
  destruct (__error (cur w)); apply delivery_not_awaiting.
Qed.

(** Handling one response adds no kill, or adds the kill of the nonzero
    server cursor id and leaves no request outstanding. *)
Lemma mod_callback_kills (r : response) (w : world) :
  kills (trace (snd (mod_callback loop r w))) = kills (trace w)
  \/ exists i,
      i <> 0
      /\ kills (trace (snd (mod_callback loop r w))) = kills (trace w) ++ [i]
      /\ forall m, fst (mod_callback loop r w) <> Ok (Awaiting m).
Proof.
  destruct (payload r) as [x |] eqn:Hp.
  - rewrite (mod_callback_payload loop r x w Hp).
    destruct (_unpack_response x (__id (cur w)) (__as_class (cur w))
                (__tz_aware (cur w))) as [rep | e] eqn:Hdec.
    + assert (Hstored : __tailable (cur w) = true
                        \/ starting_from rep = __retrieved (cur w) ->
                let st := (let (o, w') :=
                             apply_response (connection_of r) x w in
                           match o with
                           | Ok _ => loop w'
                           | Raise e => (Raise e, w')
                           end) in
                kills (trace (snd st)) = kills (trace w)
                \/ exists i,
                    i <> 0
                    /\ kills (trace (snd st)) = kills (trace w) ++ [i]
                    /\ forall m, fst st <> Ok (Awaiting m)).
      { intros Hsf.
        rewrite (apply_response_decoded _ x rep w Hdec Hsf).
        set (c1 := received (connection_of r) rep (cur w)).
        destruct (die_now c1); [| left; apply (loop_kills (mkWorld c1 _))].
        destruct (live c1) eqn:Hl.
        - unfold live in Hl. destruct (__id c1) as [i |] eqn:Hid;
            [| discriminate].
          apply andb_true_iff in Hl. destruct Hl as [Hi Hnk].
          apply negb_true_iff in Hi, Hnk. apply Z.eqb_neq in Hi.
          rewrite (die_live (mkWorld c1 (trace w)) i Hid Hi Hnk).
          right. exists i. split; [exact Hi |]. split.
          + rewrite loop_kills. simpl. rewrite kills_app. reflexivity.
          + intros m. apply loop_killed_stops. reflexivity.
        - rewrite (die_not_live (mkWorld c1 (trace w)) Hl).
          left. rewrite loop_kills. reflexivity. }
      destruct (__tailable (cur w)) eqn:Ht;
        [apply Hstored; left; reflexivity |].
      destruct (Z.eq_dec (starting_from rep) (__retrieved (cur w)))
        as [Hs | Hs]; [apply Hstored; right; exact Hs |].
      rewrite (apply_response_mismatch _ x rep w Hdec Ht Hs).
      left. reflexivity.
    + rewrite (apply_response_undecoded _ x e w Hdec). left. simpl.
      destruct (is_AutoReconnect e); [| reflexivity].
      rewrite kills_app. simpl. apply app_nil_r.
  - destruct r; try discriminate. left.
    unfold mod_callback, bind, assign. rewrite loop_kills. reflexivity.
Qed.

Lemma resume_kills (responses : list response)
    (st : outcome status * world) :
  exists l,
    kills (trace (snd (resume responses st))) = kills (trace (snd st)) ++ l
    /\ (List.length l <= 1)%nat.
Proof.
  revert st. induction responses as [| r responses IH]; intros st; simpl.
  - exists []. rewrite app_nil_r. split; [reflexivity | simpl; lia].
  - destruct st as [[[m | |] | e] w]; simpl;
      try (exists []; rewrite app_nil_r; split; [reflexivity | simpl; lia]).
    destruct (mod_callback_kills r w) as [Hsame | [i [Hi [Hkill Hdone]]]].
    + destruct (IH (mod_callback loop r w)) as [l [Hl Hlen]].
      exists l. rewrite Hl, Hsame. split; [reflexivity | exact Hlen].
    + rewrite (resume_stopped responses _ Hdone). exists [i].
      split; [exact Hkill | simpl; lia].
Qed.

(** Whatever the transport delivers, a drive hands the connection at most
    one [close_cursor]. *)
Lemma drive_kills_at_most_once (responses : list response) (w : world) :
  exists l,
    kills (trace (snd (drive responses w))) = kills (trace w) ++ l
    /\ (List.length l <= 1)%nat.
Proof.
  unfold drive. destruct (resume_kills responses (loop w)) as [l [Hl Hlen]].
  exists l. rewrite Hl, loop_kills. split; [reflexivity | exact Hlen].
Qed.

End Driver.

(** ** Instances on the loopback transport *)

Lemma die_now_iff_witness :
  exists w',
    @apply_response loopback VNone (Ok (sample_reply 123 0 5)) (sample_world 7)
    = (Ok tt, w')
    /\ __id (cur w') = Some 123
    /\ __retrieved (cur w') = 0 + 5
    /\ __data (cur w') = documents 0 5
    /\ __limit (cur w') = 7
    /\ (__killed (cur w') = true <->
        123 = 0 \/ documents 0 5 = []
        \/ (__limit (cur w') <> 0 /\ 123 <> 0
            /\ __limit (cur w') <= __retrieved (cur w'))).
Proof.
  apply (@die_now_iff loopback (sample_world 7) VNone
           (Ok (sample_reply 123 0 5)) (sample_reply 123 0 5)).
  - reflexivity.
  - reflexivity.
  - right. reflexivity.
Defined.

Lemma starting_from_checked_unless_tailable_witness :
  exists w',
    @mod_callback loopback (@loop loopback) (batch 123 3 5) (sample_world 7)
    = (Raise AssertionError, w')
    /\ trace w' = []
    /\ __retrieved (cur w') = 0
    /\ __data (cur w') = []
    /\ __datastore (cur w') = []
    /\ __error (cur w') = None
    /\ forall responses,
        @resume loopback responses
          (@mod_callback loopback (@loop loopback) (batch 123 3 5)
             (sample_world 7))
        = (Raise AssertionError, w').
Proof.
  apply (proj1 (@starting_from_checked_unless_tailable loopback
                  (sample_world 7) (batch 123 3 5)
                  (Ok (sample_reply 123 3 5)) (sample_reply 123 3 5)
                  eq_refl eq_refl)).
  - reflexivity.
  - simpl. lia.
Defined.

Lemma reconnect_error_leaves_continuation_witness :
  exists w',
    @mod_callback loopback (@loop loopback) not_master (started_world 0)
    = (Raise (AutoReconnect "master has changed"), w')
    /\ trace w' = [disconnect]
    /\ __error (cur w') = None
    /\ forall responses,
        @resume loopback responses
          (@mod_callback loopback (@loop loopback) not_master
             (started_world 0))
        = (Raise (AutoReconnect "master has changed"), w').
Proof.
  apply (@reconnect_error_leaves_continuation loopback (started_world 0)
           not_master (Raise (AutoReconnect "master has changed"))
           "master has changed").
  - reflexivity.
  - reflexivity.
Defined.

Lemma chain_call_guarded_witness :
  @invoke loopback (call_limit (VInt 7)) (started_world 0)
  = (Raise (InvalidOperation "cannot set options after executing query"),
     started_world 0).
Proof.
  apply (proj1 (@chain_call_guarded loopback (call_limit (VInt 7))
                  (started_world 0))).
  - reflexivity.
  - reflexivity.
Defined.

(** C2, as the claim has it, fails: [limit], [skip] and [batch_size] check
    their argument before they consult [__check_okay_to_chain].  After
    execution has begun, [limit("7")] raises [TypeError], not
    [InvalidOperation]; before, the same call does not succeed. *)
Lemma chain_call_type_check_first :
  executed (started_cursor 0) = true
  /\ @invoke loopback (call_limit (VStr "7")) (started_world 0)
     = (Raise (TypeError "limit must be an int"), started_world 0)
  /\ executed (sample_cursor 0) = false
  /\ @invoke loopback (call_limit (VStr "7")) (sample_world 0)
     = (Raise (TypeError "limit must be an int"), sample_world 0).
Proof. repeat split. Qed.


(** ** The limit and the sink *)

(** C8, as the code has it.  The cursor keeps every document it is sent;
    the limit is a number it passes to the server.  For a cursor that has
    not queried yet, with a nonzero [limit], driven against responses that
    honour the requests (each holds the number of documents it reports,
    and no more than the query or get-more asked for), the sink never holds
    more than [|limit|] documents.  With [limit = 7], a first batch of 5 and
    the 2 documents the get-more asks for, the sink holds exactly 7 and one
    kill-cursor is sent for the live cursor 123. *)
Theorem sink_within_limit_when_honoured :
  (forall (E : Externals) (responses : list (@response E)) (w : world),
      __limit (cur w) <> 0 -> 0 <= __batch_size (cur w) ->
      unqueried (cur w) ->
      @honoured E responses (@loop E w) ->
      Z.of_nat (List.length
                  (__datastore (cur (snd (@drive E responses w)))))
      <= Z.abs (__limit (cur w)))
  /\ (let st := @drive loopback [batch 123 0 5; batch 123 5 2]
                  (sample_world 7) in
      fst st = Ok Delivered
      /\ __datastore (cur (snd st)) = documents 0 7
      /\ requests (trace (snd st))
         = [query 0 "testdb.testcollection" 0 7 [("$query", VDict [])] VNone;
            get_more "testdb.testcollection" 2 123]
      /\ kills (trace (snd st)) = [123]).
Proof.
  split.
  - intros E responses w. apply drive_within_limit.
  - vm_compute. repeat split.
Qed.

Lemma sink_within_limit_when_honoured_witness :
  Z.of_nat (List.length
              (__datastore
                 (cur (snd (@drive loopback [batch 123 0 5; batch 123 5 2]
                              (sample_world 7))))))
  <= Z.abs 7.
Proof.
  apply (proj1 sink_within_limit_when_honoured loopback
           [batch 123 0 5; batch 123 5 2] (sample_world 7)).
  - simpl. lia.
  - simpl. lia.
  - repeat split.
  - vm_compute. repeat split; discriminate.
Defined.

(** C8, as the claim has it, fails: nothing in the cursor cuts a batch.
    With [limit = 7] and a server that sends batches of 5, the get-more
    asks for 2, 5 arrive, and the sink holds 10 documents. *)
Lemma sink_exceeds_limit :
  let st := @drive loopback [batch 123 0 5; batch 123 5 5] (sample_world 7) in
  __limit (sample_cursor 7) = 7
  /\ fst st = Ok Delivered
  /\ __datastore (cur (snd st)) = documents 0 10
  /\ ~ (Z.of_nat (List.length (__datastore (cur (snd st)))) <= Z.abs 7)
  /\ kills (trace (snd st)) = [123].
Proof.
  vm_compute. repeat split; try discriminate.
  intros Hle. apply Hle. reflexivity.
Qed.

(** ** Further runs *)

(** [Cursor(testcollection, callback=handle, limit=7)] *)
Example init_sample_cursor :
  @__init__ loopback testcollection handle VNone VNone VNone (VInt 0)
    (VInt 7) (VBool true) (VBool false) (VBool false) VNone VNone VNone
    (VBool true) (VBool false) (VBool false) []
  = Ok (sample_cursor 7).
Proof. vm_compute. reflexivity. Qed.

(** Five documents from cursor 123, then an empty batch with cursor id 0,
    no limit: five documents reach the callback and no kill-cursor is
    sent. *)
Example exhausted_by_server :
  let st := @drive loopback [batch 123 0 5; batch 0 5 0] (sample_world 0) in
  fst st = Ok Delivered
  /\ __datastore (cur (snd st)) = documents 0 5
  /\ kills (trace (snd st)) = []
  /\ last (trace (snd st)) disconnect
     = call_callback handle (VList (documents 0 5)).
Proof. vm_compute. repeat split. Qed.

(** * Further properties *)

(** ** Dictionaries *)

Lemma dict_get_set (k k' : string) (v : value) (d : dict) :
  dict_get k (dict_set k' v d)
  = if String.eqb k k' then Some v else dict_get k d.
Proof.
  induction d as [| [k'' v''] d IH]; simpl.
  - destruct (String.eqb k k'); reflexivity.
  - destruct (String.eqb_spec k' k'') as [-> | Hne]; simpl.
    + destruct (String.eqb k k''); reflexivity.
    + rewrite IH. destruct (String.eqb_spec k k'') as [-> | Hne'].
      * destruct (String.eqb_spec k'' k'); [congruence | reflexivity].
      * reflexivity.
Qed.

Lemma dict_set_same (k : string) (v : value) (d : dict) :
  dict_get k d = Some v -> dict_set k v d = d.
Proof.
  induction d as [| [k' v'] d IH]; simpl; [discriminate |].
  destruct (String.eqb_spec k k') as [-> | Hne].
  - intros Hv. inversion Hv. reflexivity.
  - intros Hv. rewrite (IH Hv). reflexivity.
Qed.

Lemma dict_set_set (k : string) (v v' : value) (d : dict) :
  dict_set k v (dict_set k v' d) = dict_set k v d.
Proof.
  induction d as [| [k' v''] d IH]; simpl.
  - rewrite String.eqb_refl. reflexivity.
  - destruct (String.eqb_spec k k') as [-> | Hne]; simpl.
    + rewrite String.eqb_refl. reflexivity.
    + destruct (String.eqb_spec k k'); [contradiction |].
      rewrite IH. reflexivity.
Qed.

Lemma dict_mem_set (k k' : string) (v : value) (d : dict) :
  dict_mem k (dict_set k' v d) = String.eqb k k' || dict_mem k d.
Proof.
  induction d as [| [k'' v''] d IH]; simpl.
  - reflexivity.
  - destruct (String.eqb_spec k' k'') as [-> | Hne]; simpl.
    + destruct (String.eqb k k''); reflexivity.
    + rewrite IH. destruct (String.eqb k k''), (String.eqb k k');
        reflexivity.
Qed.

(** ** __init__ *)

Lemma truthy_not_None (v : value) : truthy v = true -> is_None v = false.
Proof. destruct v; simpl; congruence. Qed.

Section Constructor.
Context `{Externals}.

(** A cursor that [__init__] returns was built from arguments of the types
    it asks for; it has not queried, is alive, can be configured, has batch
    size 0, no hint and no explain flag; and it holds the collection, the
    callback, the processor, the filter and the numbers it was given. *)
Theorem init_returns_unqueried_cursor (collection : Collection)
    (callback processor spec fields skip limit timeout snapshot tailable
     sort max_scan as_class store _must_use_master _is_command : value)
    (kwargs : dict) (c : Cursor) :
  __init__ collection callback processor spec fields skip limit timeout
    snapshot tailable sort max_scan as_class store _must_use_master
    _is_command kwargs = Ok c ->
  well_typed spec skip limit timeout snapshot tailable = true
  /\ unqueried c /\ executed c = false /\ alive c = true
  /\ __batch_size c = 0 /\ __explain c = false /\ __hint c = VNone
  /\ __collection c = collection /\ __callback c = callback
  /\ __processor c = processor /\ __spec c = dict_of spec
  /\ __skip c = int_of skip /\ __limit c = int_of limit
  /\ __timeout c = bool_of timeout /\ __tailable c = bool_of tailable
  /\ __snapshot c = bool_of snapshot /\ __max_scan c = max_scan
  /\ __store c = store.
Proof.
  unfold __init__, well_typed. intros Hinit.
  destruct (isinstance_dict (if is_None spec then VDict [] else spec))
    eqn:Hspec; simpl in Hinit; [| discriminate].
  destruct (isinstance_int skip); simpl in Hinit; [| discriminate].
  destruct (isinstance_int limit); simpl in Hinit; [| discriminate].
  destruct (isinstance_bool timeout); simpl in Hinit; [| discriminate].
  destruct (isinstance_bool snapshot); simpl in Hinit; [| discriminate].
  destruct (isinstance_bool tailable); simpl in Hinit; [| discriminate].
  match type of Hinit with
  | match ?f with Ok _ => _ | Raise _ => _ end = _ =>
      destruct f as [fields' |]; [| discriminate]
  end.
  match type of Hinit with
  | match ?o with Ok _ => _ | Raise _ => _ end = _ =>
      destruct o as [ordering |]; [| discriminate]
  end.
  inversion Hinit; subst c; clear Hinit. unfold unqueried, executed, alive.
  simpl. destruct (is_None spec) eqn:Hnone.
  - destruct spec; try discriminate. simpl. repeat split.
  - simpl. rewrite Hspec. repeat split.
Qed.

(** [__init__] refuses arguments of the wrong types with [TypeError]: a
    filter that is neither [None] nor a dict, a skip or limit that is not
    an int, a timeout, snapshot or tailable that is not a bool. *)
Theorem init_rejects_ill_typed (collection : Collection)
    (callback processor spec fields skip limit timeout snapshot tailable
     sort max_scan as_class store _must_use_master _is_command : value)
    (kwargs : dict) :
  well_typed spec skip limit timeout snapshot tailable = false ->
  exists msg,
    __init__ collection callback processor spec fields skip limit timeout
      snapshot tailable sort max_scan as_class store _must_use_master
      _is_command kwargs = Raise (TypeError msg).
Proof.
  unfold __init__, well_typed. intros Hty.
  assert (Hspec : isinstance_dict (if is_None spec then VDict [] else spec)
                  = is_None spec || isinstance_dict spec).
  { destruct spec; reflexivity. }
  rewrite Hspec.
  destruct (is_None spec || isinstance_dict spec); simpl;
    [| eexists; reflexivity].
  destruct (isinstance_int skip); simpl; [| eexists; reflexivity].
  destruct (isinstance_int limit); simpl; [| eexists; reflexivity].
  destruct (isinstance_bool timeout); simpl; [| eexists; reflexivity].
  destruct (isinstance_bool snapshot); simpl; [| eexists; reflexivity].
  destruct (isinstance_bool tailable); simpl; [| eexists; reflexivity].
  discriminate.
Qed.

(** [__init__] normalizes the projection and the ordering.  No projection
    stays [None]; an empty one becomes [{"_id": 1}]; a non-empty dict is
    kept; anything else non-empty is what [_fields_list_to_dict] makes of
    it.  An empty [sort] gives no ordering, and the ordering stored is
    never an empty value other than [None]. *)
Theorem init_normalizes_projection_and_ordering (collection : Collection)
    (callback processor spec fields skip limit timeout snapshot tailable
     sort max_scan as_class store _must_use_master _is_command : value)
    (kwargs : dict) (c : Cursor) :
  __init__ collection callback processor spec fields skip limit timeout
    snapshot tailable sort max_scan as_class store _must_use_master
    _is_command kwargs = Ok c ->
  (is_None fields = true -> __fields c = VNone)
  /\ (is_None fields = false -> truthy fields = false ->
      __fields c = VDict [("_id", VInt 1)])
  /\ (truthy fields = true -> isinstance_dict fields = true ->
      __fields c = fields)
  /\ (truthy fields = true -> isinstance_dict fields = false ->
      _fields_list_to_dict fields = Ok (__fields c))
  /\ (truthy sort = false -> __ordering c = VNone)
  /\ (truthy (__ordering c) = false -> __ordering c = VNone)
  /\ (is_None as_class = true ->
      __as_class c = document_class collection).
Proof.
  unfold __init__. intros Hinit.
  destruct (isinstance_dict (if is_None spec then VDict [] else spec));
    simpl in Hinit; [| discriminate].
  destruct (isinstance_int skip); simpl in Hinit; [| discriminate].
  destruct (isinstance_int limit); simpl in Hinit; [| discriminate].
  destruct (isinstance_bool timeout); simpl in Hinit; [| discriminate].
  destruct (isinstance_bool snapshot); simpl in Hinit; [| discriminate].
  destruct (isinstance_bool tailable); simpl in Hinit; [| discriminate].
  match type of Hinit with
  | match ?f with Ok _ => _ | Raise _ => _ end = _ =>
      destruct f as [fields' |] eqn:Hfields; [| discriminate]
  end.
  match type of Hinit with
  | match ?o with Ok _ => _ | Raise _ => _ end = _ =>
      destruct o as [ordering |] eqn:Hord; [| discriminate]
  end.
  inversion Hinit; subst c; clear Hinit. simpl.
  repeat split.
  - intros Hn. destruct fields; try discriminate. simpl in Hfields.
    congruence.
  - intros Hn Ht. rewrite Hn, Ht in Hfields. simpl in Hfields. congruence.
  - intros Ht Hd. rewrite (truthy_not_None _ Ht), Ht in Hfields.
    simpl in Hfields. rewrite Hd in Hfields. simpl in Hfields. congruence.
  - intros Ht Hd. rewrite (truthy_not_None _ Ht), Ht in Hfields.
    simpl in Hfields. rewrite Hd in Hfields. exact Hfields.
  - intros Ht. rewrite Ht in Hord. congruence.
  - intros Ht. destruct (truthy sort); [| congruence].
    destruct (_index_document sort) as [d |]; [| discriminate].
    destruct (truthy d) eqn:Hd; inversion Hord; subst ordering;
      [congruence | reflexivity].
  - intros Hn. rewrite Hn. reflexivity.
Qed.

End Constructor.

(** ** The spec builder: __query_options and __query_spec *)

Lemma small_bits (o n : Z) : 0 <= o < 32 -> 5 <= n -> Z.testbit o n = false.
Proof.
  intros Ho Hn. destruct (Z.eq_dec o 0) as [-> | Hne].
  - apply Z.testbit_0_l.
  - apply Z.bits_above_log2; [lia |].
    assert (Z.log2 o < 5); [| lia].
    apply Z.log2_lt_pow2; simpl; lia.
Qed.

(** [__query_options] changes nothing and returns flags that decode back
    to the configuration: bit 1 is [tailable], bit 2 the connection's
    [slave_okay], bit 4 the negation of [timeout]; no other bit is ever
    set (in particular not [oplog_replay], bit 3). *)
Theorem query_options_encode_flags (w : world) :
  exists options,
    __query_options w = (Ok options, w)
    /\ Z.testbit options 1 = __tailable (cur w)
    /\ Z.testbit options 2 = slave_okay (__collection (cur w))
    /\ Z.testbit options 4 = negb (__timeout (cur w))
    /\ (forall n, n <> 1 -> n <> 2 -> n <> 4 -> Z.testbit options n = false).
Proof.
  unfold __query_options, bind, self, ret.
  eexists. split; [reflexivity |].
  destruct (__tailable (cur w)), (slave_okay (__collection (cur w))),
    (__timeout (cur w)); simpl; repeat split;
    intros n H1 H2 H4;
    (destruct (Z.lt_ge_cases n 0) as [Hneg | Hpos];
     [apply Z.testbit_neg_r; exact Hneg |];
     destruct (Z.lt_ge_cases n 5) as [Hlow | Hhigh];
     [assert (Hn : n = 0 \/ n = 3) by lia;
      destruct Hn as [-> | ->]; reflexivity
     | apply small_bits;
       [vm_compute; split; [discriminate | reflexivity] | exact Hhigh]]).
Qed.

(** The result of [__query_spec] and what it does to the cursor. *)
Lemma query_spec_cases (w : world) :
  __query_spec w
  = (Ok (wire_spec (cur w)),
     mkWorld (if negb (truthy (__is_command (cur w)))
                 && negb (dict_mem "$query" (__spec (cur w)))
              then cur w
              else set_spec (wire_spec (cur w)) (cur w))
             (trace w)).
Proof.
  unfold wire_spec, __query_spec, bind, self, pass, ret, assign.
  cbn [cur trace].
  destruct (negb (truthy (__is_command (cur w)))
            && negb (dict_mem "$query" (__spec (cur w)))).
  - cbn [fst]. rewrite world_eta. reflexivity.
  - reflexivity.
Qed.

(** For a filter that is not a command and has no [$query] key,
    [__query_spec] leaves the cursor as it is and returns a new document:
    the filter under [$query], followed by the modifiers that are set, and
    only those, in the order [$orderby], [$explain], [$hint], [$snapshot],
    [$maxScan]. *)
Theorem query_spec_wraps_plain_filter (w : world) :
  truthy (__is_command (cur w)) = false ->
  dict_mem "$query" (__spec (cur w)) = false ->
  __query_spec w
  = (Ok ([("$query", VDict (__spec (cur w)))]
         ++ (if truthy (__ordering (cur w))
             then [("$orderby", __ordering (cur w))] else [])
         ++ (if __explain (cur w) then [("$explain", VBool true)] else [])
         ++ (if truthy (__hint (cur w))
             then [("$hint", __hint (cur w))] else [])
         ++ (if __snapshot (cur w) then [("$snapshot", VBool true)] else [])
         ++ (if truthy (__max_scan (cur w))
             then [("$maxScan", __max_scan (cur w))] else [])),
     w).
Proof.
  intros Hcmd Hq. rewrite query_spec_cases.
  unfold wire_spec, __query_spec, bind, self, pass, ret, assign. simpl.
  rewrite Hcmd, Hq. simpl.
  destruct (truthy (__ordering (cur w))), (__explain (cur w)),
    (truthy (__hint (cur w))), (__snapshot (cur w)),
    (truthy (__max_scan (cur w))); simpl; rewrite world_eta; reflexivity.
Qed.

Ltac dict_lookup :=
  repeat rewrite dict_get_set; simpl; try reflexivity.

(** The spec computed from a cursor holds every modifier that is set, and
    keeps a [$query] key the filter has. *)
Lemma wire_spec_modifiers (c : Cursor) :
  (truthy (__ordering c) = true ->
   dict_get "$orderby" (wire_spec c) = Some (__ordering c))
  /\ (__explain c = true ->
      dict_get "$explain" (wire_spec c) = Some (VBool true))
  /\ (truthy (__hint c) = true ->
      dict_get "$hint" (wire_spec c) = Some (__hint c))
  /\ (__snapshot c = true ->
      dict_get "$snapshot" (wire_spec c) = Some (VBool true))
  /\ (truthy (__max_scan c) = true ->
      dict_get "$maxScan" (wire_spec c) = Some (__max_scan c))
  /\ (dict_mem "$query" (__spec c) = true ->
      dict_mem "$query" (wire_spec c) = true).
Proof.
  unfold wire_spec, __query_spec, bind, self, pass, ret, assign.
  cbn [cur].
  destruct (negb (truthy (__is_command c))
            && negb (dict_mem "$query" (__spec c)));
    destruct (truthy (__ordering c)), (__explain c), (truthy (__hint c)),
      (__snapshot c), (truthy (__max_scan c));
    cbn [fst snd]; repeat split; intros Hset; try discriminate;
    try (dict_lookup; fail);
    repeat rewrite dict_mem_set; try rewrite Hset;
    repeat rewrite orb_true_r; reflexivity.
Qed.

(** The modifiers are settled: computing the spec of a cursor whose filter
    already is its own wire spec gives that spec again. *)
Lemma wire_spec_settled (c : Cursor) :
  negb (truthy (__is_command c)) && negb (dict_mem "$query" (__spec c))
  = false ->
  wire_spec (set_spec (wire_spec c) c) = wire_spec c.
Proof.
  intros Hal.
  destruct (wire_spec_modifiers c) as [H1 [H2 [H3 [H4 [H5 H6]]]]].
  assert (Hal' : negb (truthy (__is_command c))
                 && negb (dict_mem "$query" (wire_spec c)) = false).
  { apply andb_false_iff in Hal. destruct Hal as [Hc | Hm].
    - rewrite Hc. reflexivity.
    - apply negb_false_iff in Hm. rewrite (H6 Hm), andb_false_r.
      reflexivity. }
  remember (wire_spec c) as s eqn:Hs.
  unfold wire_spec, __query_spec, bind, self, pass, ret, assign.
  cbn [cur __is_command __spec __ordering __explain __hint __snapshot
       __max_scan set_spec].
  rewrite Hal'.
  destruct (truthy (__ordering c)) eqn:E1; try specialize (H1 eq_refl);
    destruct (__explain c) eqn:E2; try specialize (H2 eq_refl);
    destruct (truthy (__hint c)) eqn:E3; try specialize (H3 eq_refl);
    destruct (__snapshot c) eqn:E4; try specialize (H4 eq_refl);
    destruct (truthy (__max_scan c)) eqn:E5; try specialize (H5 eq_refl);
    cbn [fst snd];
    repeat match goal with
    | Hget : dict_get ?k s = Some ?v |- context [dict_set ?k ?v s] =>
        rewrite (dict_set_same k v s Hget)
    end;
    reflexivity.
Qed.

(** [__query_spec] is idempotent: a second call returns the same spec and
    changes nothing more.  When the cursor reads a command, or a filter
    that has a [$query] key, the first call has written the modifiers into
    the cursor's own filter. *)
Theorem query_spec_idempotent (w : world) :
  __query_spec (snd (__query_spec w)) = __query_spec w
  /\ (negb (truthy (__is_command (cur w)))
      && negb (dict_mem "$query" (__spec (cur w))) = false ->
      exists spec,
        fst (__query_spec w) = Ok spec
        /\ __spec (cur (snd (__query_spec w))) = spec).
Proof.
  split.
  - rewrite (query_spec_cases w). simpl. rewrite query_spec_cases. simpl.
    destruct (negb (truthy (__is_command (cur w)))
              && negb (dict_mem "$query" (__spec (cur w)))) eqn:Hal.
    + rewrite Hal. reflexivity.
    + rewrite (wire_spec_settled _ Hal). simpl.
      assert (Hal' : negb (truthy (__is_command (cur w)))
                     && negb (dict_mem "$query" (wire_spec (cur w)))
                     = false).
      { apply andb_false_iff in Hal. destruct Hal as [Hc | Hm].
        - rewrite Hc. reflexivity.
        - apply negb_false_iff in Hm.
          rewrite (proj2 (proj2 (proj2 (proj2 (proj2
                     (wire_spec_modifiers (cur w)))))) Hm), andb_false_r.
          reflexivity. }
      rewrite Hal'. destruct (cur w); reflexivity.
  - intros Hal. rewrite query_spec_cases, Hal. simpl.
    eexists. split; reflexivity.
Qed.

(** ** What a run leaves alone *)

Lemma not_executed (c : Cursor) :
  executed c = false -> __retrieved c = 0 /\ __id c = None.
Proof.
  unfold executed. destruct (Z.eqb_spec (__retrieved c) 0), (__id c); simpl;
    try discriminate. intros _. split; [assumption | reflexivity].
Qed.

Lemma query_options_cases (w : world) :
  __query_options w = (Ok (option_flags (cur w)), w).
Proof. reflexivity. Qed.

(** The spec computed from a cursor depends on its filter and modifiers
    only. *)
Lemma wire_spec_ext (c c' : Cursor) :
  __is_command c' = __is_command c -> __spec c' = __spec c ->
  __ordering c' = __ordering c -> __explain c' = __explain c ->
  __hint c' = __hint c -> __snapshot c' = __snapshot c ->
  __max_scan c' = __max_scan c ->
  wire_spec c' = wire_spec c.
Proof.
  intros Hc Hs Ho He Hh Hsn Hm.
  unfold wire_spec, __query_spec, bind, self, pass, ret, assign.
  cbn [cur]. rewrite Hc, Hs, Ho, He, Hh, Hsn, Hm.
  destruct (negb (truthy (__is_command c))
            && negb (dict_mem "$query" (__spec c))); reflexivity.
Qed.

Ltac frame :=
  unfold keeps_configuration; repeat split; try reflexivity;
  apply wire_spec_ext; reflexivity.

Lemma keeps_configuration_refl (c : Cursor) : keeps_configuration c c.
Proof. unfold keeps_configuration. repeat split. Qed.

Lemma keeps_configuration_trans (c1 c2 c3 : Cursor) :
  keeps_configuration c1 c2 -> keeps_configuration c2 c3 ->
  keeps_configuration c1 c3.
Proof.
  unfold keeps_configuration. intros H12 H23.
  repeat match goal with
  | Hc : _ /\ _ |- _ => destruct Hc
  end.
  repeat split; congruence.
Qed.

Lemma initial_query_kept (c c' : Cursor) :
  keeps_configuration c c' -> initial_query c' = initial_query c.
Proof.
  unfold keeps_configuration.
  intros [Hcoll [_ [_ [Hspec [Hf [Hs [Hl [_ [_ [_ [Hto [Hta _]]]]]]]]]]]].
  unfold initial_query, option_flags, __query_options, bind, self, ret.
  cbn [fst cur]. rewrite Hcoll, Hspec, Hf, Hs, Hl, Hto, Hta. reflexivity.
Qed.

Lemma keeps_settled (c : Cursor) :
  negb (truthy (__is_command c)) && negb (dict_mem "$query" (__spec c))
  = false ->
  keeps_configuration c (set_spec (wire_spec c) c).
Proof.
  intros Hal. unfold keeps_configuration.
  repeat split. apply wire_spec_settled, Hal.
Qed.

(** The first request of a cursor. *)
Lemma refresh_initial (w : world) :
  __id (cur w) = None ->
  exists c',
    _refresh w
    = (Ok (Awaiting (initial_query (cur w))),
       mkWorld c'
         (trace w ++ [send_message_with_response (initial_query (cur w))]))
    /\ keeps_configuration (cur w) c'
    /\ (c' = cur w \/ c' = set_spec (wire_spec (cur w)) (cur w)).
Proof.
  intros Hid. unfold _refresh, bind at 1, self at 1. rewrite Hid.
  unfold bind at 1. rewrite query_options_cases.
  unfold bind at 1. rewrite query_spec_cases.
  unfold __send_message, bind, emit, ret. cbn [cur trace].
  destruct (negb (truthy (__is_command (cur w)))
            && negb (dict_mem "$query" (__spec (cur w)))) eqn:Hal.
  - exists (cur w). split; [reflexivity |].
    split; [apply keeps_configuration_refl | left; reflexivity].
  - exists (set_spec (wire_spec (cur w)) (cur w)). split; [reflexivity |].
    split; [apply keeps_settled, Hal | right; reflexivity].
Qed.

Lemma refresh_live (w : world) (i : Z) :
  __id (cur w) = Some i -> cur (snd (_refresh w)) = cur w.
Proof.
  intros Hid. unfold _refresh, bind at 1, self at 1. rewrite Hid.
  destruct (negb (i =? 0)); reflexivity.
Qed.

Lemma keeps_refresh (w : world) :
  keeps_configuration (cur w) (cur (snd (_refresh w))).
Proof.
  destruct (__id (cur w)) as [i |] eqn:Hid.
  - rewrite (refresh_live w i Hid). apply keeps_configuration_refl.
  - destruct (refresh_initial w Hid) as [c' [Heq [Hk _]]].
    rewrite Heq. exact Hk.
Qed.

Lemma keeps_rewind (w : world) :
  keeps_configuration (cur w) (cur (snd (rewind w))).
Proof. simpl. frame. Qed.

Section Frame.
Context `{Externals}.

Lemma keeps_drained (c : Cursor) : keeps_configuration c (drained c).
Proof.
  unfold drained. destruct (negb (Nat.eqb (List.length (__data c)) 0)).
  - frame.
  - apply keeps_configuration_refl.
Qed.

Lemma keeps_loop (w : world) :
  keeps_configuration (cur w) (cur (snd (loop w))).
Proof.
  rewrite loop_cases. destruct (__error (cur w)).
  - rewrite delivery_cur. apply keeps_configuration_refl.
  - destruct (negb (__killed (cur w))).
    + eapply keeps_configuration_trans; [apply keeps_drained |].
      apply (keeps_refresh (mkWorld (drained (cur w)) (trace w))).
    + rewrite delivery_cur. apply keeps_drained.
Qed.

Lemma keeps_apply_response (conn : value) (x : raw) (w : world) :
  keeps_configuration (cur w) (cur (snd (apply_response conn x w))).
Proof.
  destruct (_unpack_response x (__id (cur w)) (__as_class (cur w))
              (__tz_aware (cur w))) as [rep | e] eqn:Hdec.
  - assert (Hstored : __tailable (cur w) = true
                      \/ starting_from rep = __retrieved (cur w) ->
              keeps_configuration (cur w)
                (cur (snd (apply_response conn x w)))).
    { intros Hsf.
      destruct (apply_response_stored conn x rep w Hdec Hsf)
        as [w' [Heq Hc]].
      rewrite Heq. simpl. rewrite Hc.
      destruct (die_now _); frame. }
    destruct (__tailable (cur w)) eqn:Ht; [apply Hstored; left; reflexivity |].
    destruct (Z.eq_dec (starting_from rep) (__retrieved (cur w)))
      as [Hs | Hs]; [apply Hstored; right; exact Hs |].
    rewrite (apply_response_mismatch conn x rep w Hdec Ht Hs).
    frame.
  - rewrite (apply_response_undecoded conn x e w Hdec).
    frame.
Qed.

Lemma keeps_mod_callback (r : response) (w : world) :
  keeps_configuration (cur w) (cur (snd (mod_callback loop r w))).
Proof.
  destruct (payload r) as [x |] eqn:Hp.
  - rewrite (mod_callback_payload loop r x w Hp).
    pose proof (keeps_apply_response (connection_of r) x w) as Hk.
    destruct (apply_response (connection_of r) x w) as [[[] | e] w'];
      simpl in Hk; [| exact Hk].
    eapply keeps_configuration_trans; [exact Hk | apply keeps_loop].
  - destruct r; try discriminate. unfold mod_callback, bind, assign.
    eapply keeps_configuration_trans; [| apply keeps_loop].
    frame.
Qed.

Lemma keeps_resume (responses : list response)
    (st : outcome status * world) :
  keeps_configuration (cur (snd st)) (cur (snd (resume responses st))).
Proof.
  revert st. induction responses as [| r responses IH]; intros st; simpl.
  - apply keeps_configuration_refl.
  - destruct st as [[[m | |] | e] w]; simpl;
      try apply keeps_configuration_refl.
    eapply keeps_configuration_trans; [apply (keeps_mod_callback r w) |].
    apply IH.
Qed.

Lemma keeps_drive (responses : list response) (w : world) :
  keeps_configuration (cur w) (cur (snd (drive responses w))).
Proof.
  unfold drive.
  eapply keeps_configuration_trans; [apply keeps_loop | apply keeps_resume].
Qed.

(** A run never changes the configuration of the cursor: whatever the
    transport delivers, the collection, callback, processor, projection,
    skip, limit, batch size, flags, ordering, hint and the spec computed
    from the filter are afterwards what they were. *)
Theorem drive_keeps_configuration (responses : list response) (w : world) :
  keeps_configuration (cur w) (cur (snd (drive responses w))).
Proof. apply keeps_drive. Qed.

Lemma loop_first_query (v : world) :
  __id (cur v) = None -> __killed (cur v) = false ->
  __error (cur v) = None ->
  exists v',
    loop v = (Ok (Awaiting (initial_query (cur v))), v')
    /\ trace v'
       = trace v ++ [send_message_with_response (initial_query (cur v))].
Proof.
  intros Hid Hk He. rewrite loop_cases, He, Hk. simpl.
  destruct (drained_state (cur v)) as [Eid _].
  destruct (refresh_initial (mkWorld (drained (cur v)) (trace v)))
    as [c' [Heq _]]; [simpl; congruence |].
  rewrite Heq. simpl.
  rewrite (initial_query_kept _ _ (keeps_drained (cur v))).
  eexists. split; reflexivity.
Qed.

(** The first [loop] of a cursor that has not queried sends the query
    built from its configuration.  After any run, [rewind] followed by
    [loop] sends that same query again, with the same flags, skip, limit,
    spec and projection, provided no error is stored. *)
Theorem rewind_replays_initial_query (responses : list response)
    (w : world) :
  (__id (cur w) = None -> __killed (cur w) = false ->
   __error (cur w) = None ->
   fst (loop w) = Ok (Awaiting (initial_query (cur w))))
  /\ (__error (cur (snd (drive responses w))) = None ->
      exists w',
        loop (snd (rewind (snd (drive responses w))))
        = (Ok (Awaiting (initial_query (cur w))), w')
        /\ trace w'
           = trace (snd (drive responses w))
             ++ [send_message_with_response (initial_query (cur w))]).
Proof.
  split.
  - intros Hid Hk He. destruct (loop_first_query w Hid Hk He) as [v' [Heq _]].
    rewrite Heq. reflexivity.
  - intros He. set (w1 := snd (drive responses w)) in *.
    destruct (loop_first_query (snd (rewind w1))) as [v' [Heq Ht]];
      [reflexivity | reflexivity | exact He |].
    assert (Hq : initial_query (cur (snd (rewind w1)))
                 = initial_query (cur w)).
    { apply initial_query_kept.
      eapply keeps_configuration_trans;
        [apply keeps_drive | apply keeps_rewind]. }
    rewrite Hq in Heq, Ht. exists v'. split; [exact Heq | exact Ht].
Qed.

End Frame.

(** ** The first request, explain and batch size *)

Section Requests.
Context `{Externals}.

(** *** One request at a time *)

Lemma requests_app (t t' : list event) :
  requests (t ++ t') = requests t ++ requests t'.
Proof.
  induction t as [| e t IH]; simpl; [reflexivity |].
  destruct e; simpl; rewrite IH; reflexivity.
Qed.

Lemma die_requests (w : world) :
  requests (trace (snd (__die w))) = requests (trace w).
Proof.
  destruct (live (cur w)) eqn:Hl.
  - unfold live in Hl. destruct (__id (cur w)) as [i |] eqn:Hid;
      [| discriminate].
    apply andb_true_iff in Hl. destruct Hl as [Hi Hk].
    apply negb_true_iff in Hi, Hk. apply Z.eqb_neq in Hi.
    rewrite (die_live w i Hid Hi Hk). simpl.
    rewrite requests_app. simpl. apply app_nil_r.
  - rewrite (die_not_live w Hl). reflexivity.
Qed.

Lemma delivery_requests_sent (c : Cursor) (arg : value) (t : list event) :
  requests (trace (snd (delivery c arg t)))
  = requests t
    ++ match fst (delivery c arg t) with
       | Ok (Awaiting m) => [m]
       | _ => []
       end.
Proof.
  unfold delivery. destruct (callable (__callback c)); simpl.
  - rewrite requests_app. reflexivity.
  - symmetry. apply app_nil_r.
Qed.

Lemma loop_requests_sent (w : world) :
  requests (trace (snd (loop w)))
  = requests (trace w)
    ++ match fst (loop w) with
       | Ok (Awaiting m) => [m]
       | _ => []
       end.
Proof.
  rewrite loop_cases. destruct (__error (cur w)).
  - apply delivery_requests_sent.
  - destruct (negb (__killed (cur w))).
    + destruct (refresh_cases (mkWorld (drained (cur w)) (trace w)))
        as [s [st [Heq _]]].
      rewrite Heq. simpl. rewrite requests_app.
      destruct st; reflexivity.
    + apply delivery_requests_sent.
Qed.

Lemma apply_response_requests (conn : value) (x : raw) (w : world) :
  requests (trace (snd (apply_response conn x w))) = requests (trace w).
Proof.
  destruct (_unpack_response x (__id (cur w)) (__as_class (cur w))
              (__tz_aware (cur w))) as [rep | e] eqn:Hdec.
  - assert (Hstored : __tailable (cur w) = true
                      \/ starting_from rep = __retrieved (cur w) ->
              requests (trace (snd (apply_response conn x w)))
              = requests (trace w)).
    { intros Hsf. rewrite (apply_response_decoded conn x rep w Hdec Hsf).
      destruct (die_now _); [| reflexivity].
      rewrite die_requests. reflexivity. }
    destruct (__tailable (cur w)) eqn:Ht;
      [apply Hstored; left; reflexivity |].
    destruct (Z.eq_dec (starting_from rep) (__retrieved (cur w)))
      as [Hs | Hs]; [apply Hstored; right; exact Hs |].
    rewrite (apply_response_mismatch conn x rep w Hdec Ht Hs). reflexivity.
  - rewrite (apply_response_undecoded conn x e w Hdec). simpl.
    destruct (is_AutoReconnect e); [| reflexivity].
    rewrite requests_app. simpl. apply app_nil_r.
Qed.

Lemma mod_callback_requests_sent (r : response) (w : world) :
  exists sent,
    requests (trace (snd (mod_callback loop r w)))
    = requests (trace w) ++ sent
    /\ List.length sent = outstanding (mod_callback loop r w).
Proof.
  unfold outstanding.
  destruct (payload r) as [x |] eqn:Hp.
  - rewrite (mod_callback_payload loop r x w Hp).
    pose proof (apply_response_requests (connection_of r) x w) as Hreq.
    destruct (apply_response (connection_of r) x w) as [[[] | e] w'];
      simpl in Hreq.
    + rewrite loop_requests_sent, Hreq. eexists. split; [reflexivity |].
      destruct (fst (loop w')) as [[m | |] | e]; reflexivity.
    + exists []. rewrite app_nil_r. split; [exact Hreq | reflexivity].
  - destruct r; try discriminate. unfold mod_callback, bind, assign.
    set (w1 := mkWorld (set_error (Some e) (cur w)) (trace w)).
    rewrite (loop_requests_sent w1). eexists. split; [reflexivity |].
    destruct (fst (loop w1)) as [[m | |] | e0]; reflexivity.
Qed.

Lemma resume_requests_sent (responses : list response)
    (st : outcome status * world) :
  exists sent,
    requests (trace (snd (resume responses st)))
    = requests (trace (snd st)) ++ sent
    /\ (List.length sent + outstanding st
        = consumed responses st + outstanding (resume responses st))%nat
    /\ (consumed responses st <= List.length responses)%nat.
Proof.
  revert st. induction responses as [| r responses IH]; intros st; simpl.
  - exists []. rewrite app_nil_r. repeat split; simpl; lia.
  - destruct st as [[[m | |] | e] w]; simpl;
      try (exists []; rewrite app_nil_r; repeat split; simpl; lia).
    destruct (mod_callback_requests_sent r w) as [l1 [Hl1 Hn1]].
    destruct (IH (mod_callback loop r w)) as [l2 [Hl2 [Hn2 Hc]]].
    exists (l1 ++ l2). rewrite Hl2, Hl1, app_assoc.
    split; [reflexivity |]. rewrite List.length_app.
    unfold outstanding at 1. simpl. split; lia.
Qed.

(** A run keeps one request in flight at most: the requests it sends are
    as many as the responses it consumes, plus one if a request is still
    outstanding when it stops.  Each call of [loop] sends one message when
    it leaves a request outstanding and none otherwise. *)
Theorem single_flight (responses : list response) (w : world) :
  exists sent,
    requests (trace (snd (drive responses w))) = requests (trace w) ++ sent
    /\ List.length sent
       = (consumed responses (loop w) + outstanding (drive responses w))%nat
    /\ (consumed responses (loop w) <= List.length responses)%nat
    /\ requests (trace (snd (loop w)))
       = requests (trace w)
         ++ match fst (loop w) with
            | Ok (Awaiting m) => [m]
            | _ => []
            end.
Proof.
  unfold drive.
  destruct (resume_requests_sent responses (loop w)) as [l2 [Hl2 [Hn Hc]]].
  exists (match fst (loop w) with
          | Ok (Awaiting m) => [m]
          | _ => []
          end ++ l2).
  rewrite Hl2, loop_requests_sent, app_assoc.
  split; [reflexivity |]. split; [| split; [exact Hc | reflexivity]].
  rewrite List.length_app. unfold outstanding in Hn at 1.
  destruct (fst (loop w)) as [[m | |] | e]; simpl in *; lia.
Qed.

(** Whatever the batch size, the first request of a cursor is the same
    query, and the number of documents it asks for is the limit: the batch
    size only bounds a get-more. *)
Theorem initial_query_ignores_batch_size (w : world) (b : Z) :
  __id (cur w) = None ->
  fst (_refresh w) = Ok (Awaiting (initial_query (cur w)))
  /\ requested (initial_query (cur w)) = __limit (cur w)
  /\ fst (_refresh (mkWorld (set_batch_size b (cur w)) (trace w)))
     = fst (_refresh w).
Proof.
  intros Hid.
  destruct (refresh_initial w Hid) as [c' [Heq _]].
  destruct (refresh_initial (mkWorld (set_batch_size b (cur w)) (trace w))
              Hid) as [c2 [Heq2 _]].
  rewrite Heq, Heq2. simpl. repeat split.
  unfold initial_query.
  rewrite (wire_spec_ext (cur w) (set_batch_size b (cur w)))
    by reflexivity.
  reflexivity.
Qed.

Lemma drained_callback (c : Cursor) :
  __callback (drained c) = __callback c.
Proof. unfold drained. destruct (__data c); reflexivity. Qed.

(** [loop] returns normally when the callback can be called.  The one
    exception that leaves it is the [TypeError] of calling a callback that
    cannot be called, on a cursor that holds an error or is killed; no
    event was recorded then. *)
Lemma loop_raises_only_uncallable (w : world) :
  (callable (__callback (cur w)) = true -> exists st, fst (loop w) = Ok st)
  /\ (forall e, fst (loop w) = Raise e ->
      e = not_callable (__callback (cur w))
      /\ callable (__callback (cur w)) = false
      /\ (__error (cur w) <> None \/ __killed (cur w) = true)
      /\ trace (snd (loop w)) = trace w).
Proof.
  rewrite loop_cases. destruct (__error (cur w)) as [e0 |].
  - unfold delivery. destruct (callable (__callback (cur w))) eqn:Hc; simpl.
    + split; [intros _; eexists; reflexivity | discriminate].
    + split; [discriminate |]. intros e He. inversion He.
      repeat split. left. discriminate.
  - destruct (__killed (cur w)) eqn:Hk; simpl.
    + unfold delivery. rewrite drained_callback.
      destruct (callable (__callback (cur w))) eqn:Hc; simpl.
      * split; [intros _; eexists; reflexivity | discriminate].
      * split; [discriminate |]. intros e He. inversion He.
        repeat split. right. reflexivity.
    + destruct (refresh_cases (mkWorld (drained (cur w)) (trace w)))
        as [s [st [Heq _]]].
      rewrite Heq. simpl.
      split; [intros _; exists st; reflexivity | discriminate].
Qed.


End Requests.

(** ** alive *)

Section Liveness.
Context `{Externals}.

Lemma drained_buffer (c : Cursor) : __data (drained c) = [].
Proof.
  unfold drained. destruct (__data c) eqn:Hd; simpl; [exact Hd | reflexivity].
Qed.

(** What the status of a run says about [alive]. *)
Lemma loop_alive (w : world) :
  match fst (loop w) with
  | Ok Delivered =>
      __error (cur (snd (loop w))) = None ->
      alive (cur (snd (loop w))) = false
  | Ok _ => alive (cur (snd (loop w))) = true
  | Raise _ => True
  end.
Proof.
  rewrite loop_cases. destruct (__error (cur w)) eqn:He.
  - unfold delivery. destruct (callable (__callback (cur w)));
      [| exact I].
    simpl. rewrite He. discriminate.
  - destruct (drained_state (cur w)) as [_ [Ekill _]].
    destruct (__killed (cur w)) eqn:Hk; simpl.
    + unfold delivery. destruct (callable (__callback (drained (cur w))));
        [| exact I].
      simpl. intros _. unfold alive. rewrite drained_buffer, Ekill.
      reflexivity.
    + destruct (refresh_cases (mkWorld (drained (cur w)) (trace w)))
        as [s [st [Heq Hst]]].
      rewrite Heq. simpl in *.
      assert (Halive : alive (set_spec s (drained (cur w))) = true).
      { unfold alive. simpl. rewrite Ekill. apply orb_true_r. }
      destruct st as [m | |]; simpl; try exact Halive.
      destruct (__id (drained (cur w))) as [i |].
      * destruct (i =? 0); [discriminate |].
        destruct Hst as [n [Hst _]]. discriminate.
      * destruct Hst as [o [q Hst]]. discriminate.
Qed.

Lemma mod_callback_alive (r : response) (w : world) :
  match fst (mod_callback loop r w) with
  | Ok Delivered =>
      __error (cur (snd (mod_callback loop r w))) = None ->
      alive (cur (snd (mod_callback loop r w))) = false
  | Ok _ => alive (cur (snd (mod_callback loop r w))) = true
  | Raise _ => True
  end.
Proof.
  destruct (payload r) as [x |] eqn:Hp.
  - rewrite (mod_callback_payload loop r x w Hp).
    destruct (apply_response (connection_of r) x w) as [[[] | e] w'].
    + apply loop_alive.
    + exact I.
  - destruct r as [e | |]; try discriminate.
    rewrite (proj1 (transport_exception_delivered w e)).
    unfold delivery. destruct (callable _); [| exact I].
    simpl. discriminate.
Qed.

(** When a run has delivered the documents to the callback, the cursor is
    no longer alive: its buffer is empty and it is killed.  While a request
    is outstanding the cursor is alive. *)
Theorem delivered_cursor_not_alive (responses : list response) (w : world) :
  (fst (drive responses w) = Ok Delivered ->
   __error (cur (snd (drive responses w))) = None ->
   alive (cur (snd (drive responses w))) = false
   /\ __data (cur (snd (drive responses w))) = []
   /\ __killed (cur (snd (drive responses w))) = true)
  /\ (forall m, fst (drive responses w) = Ok (Awaiting m) ->
      alive (cur (snd (drive responses w))) = true).
Proof.
  assert (Hinv : forall rs st,
            match fst st with
            | Ok Delivered =>
                __error (cur (snd st)) = None -> alive (cur (snd st)) = false
            | Ok _ => alive (cur (snd st)) = true
            | Raise _ => True
            end ->
            match fst (resume rs st) with
            | Ok Delivered =>
                __error (cur (snd (resume rs st))) = None ->
                alive (cur (snd (resume rs st))) = false
            | Ok _ => alive (cur (snd (resume rs st))) = true
            | Raise _ => True
            end).
  { induction rs as [| r rs IH]; intros st Hst; simpl; [exact Hst |].
    destruct st as [[[m | |] | e] v]; try exact Hst.
    apply IH, mod_callback_alive. }
  specialize (Hinv responses (loop w) (loop_alive w)).
  fold (drive responses w) in Hinv.
  split.
  - intros Hd He. rewrite Hd in Hinv. specialize (Hinv He).
    split; [exact Hinv |]. unfold alive in Hinv.
    apply orb_false_iff in Hinv. destruct Hinv as [Hdata Hk].
    apply negb_false_iff in Hdata, Hk. split; [| exact Hk].
    apply Nat.eqb_eq in Hdata.
    destruct (__data (cur (snd (drive responses w)))); [reflexivity |].
    discriminate.
  - intros m Hm. rewrite Hm in Hinv. exact Hinv.
Qed.

End Liveness.

(** ** The result sink *)

Section Sink.
Context `{Externals}.

Lemma retained_app (c : Cursor) (l1 l2 : list value) :
  retained c (l1 ++ l2) = retained c l1 ++ retained c l2.
Proof.
  induction l1 as [| r l1 IH]; simpl; [reflexivity |].
  destruct (truthy (__store c) && truthy _); simpl; rewrite IH; reflexivity.
Qed.

Lemma retained_outgoing (c : Cursor) (l : list value) :
  retained c l
  = if truthy (__store c) then filter truthy (map (outgoing c) l) else [].
Proof.
  induction l as [| r l IH]; simpl.
  - destruct (truthy (__store c)); reflexivity.
  - fold (outgoing c r). rewrite IH.
    destruct (truthy (__store c)); simpl; [| reflexivity].
    destruct (truthy (outgoing c r)); reflexivity.
Qed.

Lemma retained_kept (c c' : Cursor) (l : list value) :
  keeps_configuration c c' -> retained c' l = retained c l.
Proof.
  intros [Hc [_ [Hp [_ [_ [_ [_ [_ [Hs _]]]]]]]]].
  apply retained_frame; assumption.
Qed.


Lemma loop_awaiting (w : world) (m : message) :
  fst (loop w) = Ok (Awaiting m) ->
  __error (cur (snd (loop w))) = None /\ __data (cur (snd (loop w))) = [].
Proof.
  rewrite loop_cases. destruct (__error (cur w)) eqn:He;
    [intros Hm; destruct (delivery_not_awaiting _ _ _ _ Hm) |].
  destruct (negb (__killed (cur w)));
    [| intros Hm; destruct (delivery_not_awaiting _ _ _ _ Hm)].
  destruct (refresh_cases (mkWorld (drained (cur w)) (trace w)))
    as [s [st [Heq _]]].
  rewrite Heq. simpl.
  intros _. split; [| apply drained_buffer].
  unfold drained. destruct (negb _); simpl; exact He.
Qed.

Lemma mod_callback_awaiting (r : response) (w : world) (m : message) :
  fst (mod_callback loop r w) = Ok (Awaiting m) ->
  __error (cur (snd (mod_callback loop r w))) = None
  /\ __data (cur (snd (mod_callback loop r w))) = [].
Proof.
  destruct (payload r) as [x |] eqn:Hp.
  - rewrite (mod_callback_payload loop r x w Hp).
    destruct (apply_response (connection_of r) x w) as [[[] | e] w'].
    + apply loop_awaiting.
    + discriminate.
  - destruct r as [e | |]; try discriminate.
    rewrite (proj1 (transport_exception_delivered w e)).
    intros Hm. destruct (delivery_not_awaiting _ _ _ _ Hm).
Qed.

(** One response, arriving at a cursor with an empty buffer and no stored
    error, adds to the sink what is retained of the batch it stores. *)
Lemma mod_callback_collects (r : response) (w : world) :
  __error (cur w) = None -> __data (cur w) = [] ->
  __datastore (cur (snd (mod_callback loop r w)))
  = __datastore (cur w) ++ retained (cur w) (stored_batch r w).
Proof.
  intros He Hd. unfold stored_batch.
  destruct (payload r) as [x |] eqn:Hp.
  - rewrite (mod_callback_payload loop r x w Hp).
    destruct (_unpack_response x (__id (cur w)) (__as_class (cur w))
                (__tz_aware (cur w))) as [rep | e] eqn:Hdec.
    + assert (Hstored : __tailable (cur w) = true
                        \/ starting_from rep = __retrieved (cur w) ->
                __datastore
                  (cur (snd (let (o, w') :=
                               apply_response (connection_of r) x w in
                             match o with
                             | Ok _ => loop w'
                             | Raise e => (Raise e, w')
                             end)))
                = __datastore (cur w) ++ retained (cur w) (data rep)).
      { intros Hsf.
        destruct (apply_response_stored (connection_of r) x rep w Hdec Hsf)
          as [w2 [Heq Hc]].
        rewrite Heq, loop_sink.
        assert (Hf : __error (cur w2) = None
                     /\ __datastore (cur w2) = __datastore (cur w)
                     /\ __data (cur w2) = data rep
                     /\ keeps_configuration (cur w) (cur w2)).
        { rewrite Hc. destruct (die_now _); simpl; rewrite He;
            repeat split; frame. }
        destruct Hf as [H1 [H2 [H3 H4]]].
        rewrite H1, H2, H3, (retained_kept _ _ _ H4). reflexivity. }
      destruct (__tailable (cur w)) eqn:Ht;
        [apply Hstored; left; reflexivity |].
      destruct (Z.eqb_spec (starting_from rep) (__retrieved (cur w)))
        as [Hs | Hs]; simpl; [apply Hstored; right; exact Hs |].
      rewrite (apply_response_mismatch _ x rep w Hdec Ht Hs). simpl.
      rewrite app_nil_r. reflexivity.
    + rewrite (apply_response_undecoded _ x e w Hdec). simpl.
      rewrite app_nil_r. reflexivity.
  - destruct r; try discriminate. unfold mod_callback, bind, assign.
    rewrite loop_sink. simpl. rewrite app_nil_r. reflexivity.
Qed.

Lemma resume_collects (responses : list response)
    (st : outcome status * world) :
  (forall m, fst st = Ok (Awaiting m) ->
   __error (cur (snd st)) = None /\ __data (cur (snd st)) = []) ->
  __datastore (cur (snd (resume responses st)))
  = __datastore (cur (snd st))
    ++ retained (cur (snd st)) (arrivals responses st).
Proof.
  revert st. induction responses as [| r responses IH]; intros st Hst; simpl.
  - rewrite app_nil_r. reflexivity.
  - destruct st as [[[m | |] | e] w]; simpl;
      try (rewrite app_nil_r; reflexivity).
    destruct (Hst m eq_refl) as [He Hd]. simpl in He, Hd.
    rewrite IH; [| intros m'; apply mod_callback_awaiting].
    rewrite (mod_callback_collects r w He Hd), retained_app, <- app_assoc.
    rewrite (retained_kept _ _ _ (keeps_mod_callback r w)). reflexivity.
Qed.


End Sink.

(** ** Hard limits *)

Section Hard_limit.
Context `{Externals}.

(** [loop] on a killed cursor hands the stored error, or else the sink,
    to the callback. *)
Lemma loop_killed_cases (w : world) :
  __killed (cur w) = true ->
  exists c arg,
    loop w = delivery c arg (trace w)
    /\ __killed c = true /\ __callback c = __callback (cur w).
Proof.
  intros Hk. rewrite loop_cases, Hk.
  destruct (__error (cur w)) as [e |]; simpl.
  - exists (cur w), (VExc e). repeat split. exact Hk.
  - exists (drained (cur w)), (VList (__datastore (drained (cur w)))).
    split; [reflexivity |]. split; [| apply drained_callback].
    destruct (drained_state (cur w)) as [_ [Ekill _]]. congruence.
Qed.


End Hard_limit.

(** ** A cursor without a callback *)

Section Callback.
Context `{Externals}.


End Callback.

(** ** The chain API: the last call wins *)

Section Last_call.
Context `{Externals}.

Lemma check_okay_fresh (c : Cursor) (t : list event) :
  __retrieved c = 0 -> __id c = None ->
  __check_okay_to_chain (mkWorld c t) = (Ok tt, mkWorld c t).
Proof.
  intros Hr Hi. unfold __check_okay_to_chain, bind, self, pass, ret.
  simpl. rewrite Hr, Hi. reflexivity.
Qed.

Lemma bind_ok {A B} (m : M A) (k : M B) (a : A) (w w' : world) :
  m w = (Ok a, w') -> (m ;; k) w = k w'.
Proof. unfold bind. intros ->. reflexivity. Qed.

Ltac chain_step Hr Hi :=
  cbn [negb]; unfold bind; rewrite (check_okay_fresh _ _ Hr Hi);
  reflexivity.

Lemma limit_fresh (v : value) (c : Cursor) (t : list event) :
  __retrieved c = 0 -> __id c = None -> isinstance_int v = true ->
  limit v (mkWorld c t)
  = (Ok (set_limit (int_of v) (set_empty false c)),
     mkWorld (set_limit (int_of v) (set_empty false c)) t).
Proof. intros Hr Hi Hv. unfold limit. rewrite Hv. chain_step Hr Hi. Qed.

Lemma skip_fresh (v : value) (c : Cursor) (t : list event) :
  __retrieved c = 0 -> __id c = None -> isinstance_int_long v = true ->
  skip v (mkWorld c t)
  = (Ok (set_skip (int_of v) c), mkWorld (set_skip (int_of v) c) t).
Proof. intros Hr Hi Hv. unfold skip. rewrite Hv. chain_step Hr Hi. Qed.

Lemma batch_size_fresh (v : value) (c : Cursor) (t : list event) :
  __retrieved c = 0 -> __id c = None ->
  isinstance_int v && negb (int_of v <? 0) = true ->
  batch_size v (mkWorld c t)
  = (Ok (set_batch_size (if int_of v =? 1 then 2 else int_of v) c),
     mkWorld (set_batch_size (if int_of v =? 1 then 2 else int_of v) c) t).
Proof.
  intros Hr Hi Hv. apply andb_true_iff in Hv. destruct Hv as [Hv Hn].
  apply negb_true_iff in Hn. unfold batch_size. rewrite Hv, Hn.
  chain_step Hr Hi.
Qed.

Lemma max_scan_fresh (v : value) (c : Cursor) (t : list event) :
  __retrieved c = 0 -> __id c = None ->
  max_scan v (mkWorld c t)
  = (Ok (set_max_scan v c), mkWorld (set_max_scan v c) t).
Proof. intros Hr Hi. unfold max_scan. chain_step Hr Hi. Qed.

Lemma sort_fresh (k d keys o : value) (c : Cursor) (t : list event) :
  __retrieved c = 0 -> __id c = None ->
  _index_list k d = Ok keys -> _index_document keys = Ok o ->
  sort k d (mkWorld c t)
  = (Ok (set_ordering o c), mkWorld (set_ordering o c) t).
Proof.
  intros Hr Hi Hk Ho. unfold sort, bind.
  rewrite (check_okay_fresh _ _ Hr Hi), Hk. simpl. rewrite Ho. reflexivity.
Qed.

Lemma hint_fresh (v : value) (c : Cursor) (t : list event) :
  __retrieved c = 0 -> __id c = None ->
  is_None v || succeeds (_index_document v) = true ->
  exists h,
    hint v (mkWorld c t) = (Ok (set_hint h c), mkWorld (set_hint h c) t).
Proof.
  intros Hr Hi Hv. unfold hint, bind.
  rewrite (check_okay_fresh _ _ Hr Hi).
  destruct (is_None v); simpl in *.
  - exists VNone. reflexivity.
  - destruct (_index_document v) as [h |]; [| discriminate].
    exists h. reflexivity.
Qed.

Lemma where_fresh (v : value) (c : Cursor) (t : list event) :
  __retrieved c = 0 -> __id c = None ->
  isinstance_Code v || succeeds (Code v) = true ->
  exists code,
    where_ v (mkWorld c t)
    = (Ok (set_spec (dict_set "$where" code (__spec c)) c),
       mkWorld (set_spec (dict_set "$where" code (__spec c)) c) t).
Proof.
  intros Hr Hi Hv. unfold where_, bind.
  rewrite (check_okay_fresh _ _ Hr Hi).
  destruct (isinstance_Code v); simpl in *.
  - exists v. reflexivity.
  - destruct (Code v) as [code |]; [| discriminate].
    exists code. reflexivity.
Qed.

(** Of two calls of the same configuration method on a cursor that has not
    been executed, both with arguments the method accepts, only the second
    has an effect: the two calls in a row leave the cursor as the second
    alone does. *)
Theorem last_call_wins (m1 m2 : chain_call) (w : world) :
  same_method m1 m2 = true ->
  executed (cur w) = false ->
  argument_accepted m1 = true -> argument_accepted m2 = true ->
  (invoke m1 ;; invoke m2) w = invoke m2 w.
Proof.
  intros Hsame Hex H1 H2.
  destruct (not_executed _ Hex) as [Hr Hi].
  unfold argument_accepted in H1, H2.
  apply andb_true_iff in H1, H2.
  destruct H1 as [He1 Hc1], H2 as [He2 Hc2].
  destruct w as [c t]. simpl in Hr, Hi.
  destruct m1 as [a1 | a1 | a1 | a1 | a1 b1 | a1 | a1],
    m2 as [a2 | a2 | a2 | a2 | a2 b2 | a2 | a2];
    try discriminate; simpl in *.
  - rewrite (bind_ok _ _ _ _ _ (limit_fresh a1 c t Hr Hi He1)).
    rewrite !limit_fresh by assumption. reflexivity.
  - rewrite (bind_ok _ _ _ _ _ (skip_fresh a1 c t Hr Hi He1)).
    rewrite !skip_fresh by assumption. reflexivity.
  - rewrite (bind_ok _ _ _ _ _ (batch_size_fresh a1 c t Hr Hi He1)).
    rewrite !batch_size_fresh by assumption. reflexivity.
  - rewrite (bind_ok _ _ _ _ _ (max_scan_fresh a1 c t Hr Hi)).
    rewrite !max_scan_fresh by assumption. reflexivity.
  - destruct (_index_list a1 b1) as [k1 |] eqn:E1; [| discriminate].
    destruct (_index_document k1) as [o1 |] eqn:E1'; [| discriminate].
    destruct (_index_list a2 b2) as [k2 |] eqn:E2; [| discriminate].
    destruct (_index_document k2) as [o2 |] eqn:E2'; [| discriminate].
    rewrite (bind_ok _ _ _ _ _ (sort_fresh a1 b1 k1 o1 c t Hr Hi E1 E1')).
    rewrite (sort_fresh a2 b2 k2 o2 (set_ordering o1 c) t Hr Hi E2 E2').
    rewrite (sort_fresh a2 b2 k2 o2 c t Hr Hi E2 E2'). reflexivity.
  - destruct (hint_fresh a1 c t Hr Hi Hc1) as [h1 Hh1].
    destruct (hint_fresh a2 c t Hr Hi Hc2) as [h2 Hh2].
    destruct (hint_fresh a2 (set_hint h1 c) t Hr Hi Hc2) as [h3 Hh3].
    rewrite (bind_ok _ _ _ _ _ Hh1), Hh2.
    assert (Hsame3 : h3 = h2).
    { unfold hint, bind in Hh2, Hh3.
      rewrite (check_okay_fresh _ _ Hr Hi) in Hh2.
      rewrite (check_okay_fresh (set_hint h1 c) t Hr Hi) in Hh3.
      destruct (is_None a2); simpl in *.
      - inversion Hh2. inversion Hh3. congruence.
      - destruct (_index_document a2); [| discriminate].
        simpl in *. inversion Hh2. inversion Hh3. congruence. }
    rewrite Hh3, Hsame3. reflexivity.
  - destruct (where_fresh a1 c t Hr Hi Hc1) as [c1 Hw1].
    rewrite (bind_ok _ _ _ _ _ Hw1).
    unfold where_, bind.
    rewrite !check_okay_fresh by (simpl; assumption).
    destruct (isinstance_Code a2); simpl in *.
    + rewrite dict_set_set. reflexivity.
    + destruct (Code a2) as [c2 |]; [| discriminate]. simpl.
      rewrite dict_set_set. reflexivity.
Qed.

End Last_call.

(** ** count and distinct *)

Lemma resolve_callback_cases (callback : value) (w : world) :
  resolve_callback callback w
  = if is_None callback && is_None (__callback (cur w))
    then (Raise AssertionError, w)
    else (Ok (if is_None callback then __callback (cur w) else callback), w).
Proof.
  unfold resolve_callback, bind, self, raise, ret.
  destruct (is_None callback), (is_None (__callback (cur w))); reflexivity.
Qed.

Section Commands.
Context `{Builtins}.


End Commands.


(** ** where and rewind in the chain *)

Section Chain_and_rewind.
Context `{Externals}.

(** [where] on a cursor that has not been executed stores the code under
    [$where] in the cursor's filter, converted by [Code] unless it already
    is one, and leaves every other key of the filter as it was. *)
Theorem where_merges_into_filter (v : value) (w : world) :
  executed (cur w) = false ->
  isinstance_Code v || succeeds (Code v) = true ->
  exists code w',
    where_ v w = (Ok (cur w'), w')
    /\ (if isinstance_Code v then code = v else Code v = Ok code)
    /\ dict_get "$where" (__spec (cur w')) = Some code
    /\ (forall k, k <> "$where" ->
        dict_get k (__spec (cur w')) = dict_get k (__spec (cur w)))
    /\ trace w' = trace w.
Proof.
  intros Hex Hv. destruct (not_executed _ Hex) as [Hr Hi].
  destruct w as [c t]. simpl in *.
  unfold where_, bind. rewrite (check_okay_fresh c t Hr Hi).
  destruct (isinstance_Code v); simpl in *.
  - exists v. eexists. split; [reflexivity |]. simpl.
    split; [reflexivity |]. split.
    + rewrite dict_get_set, String.eqb_refl. reflexivity.
    + split; [| reflexivity]. intros k Hk. rewrite dict_get_set.
      destruct (String.eqb_spec k "$where"); [contradiction | reflexivity].
  - destruct (Code v) as [code |]; [| discriminate]. simpl.
    exists code. eexists. split; [reflexivity |]. simpl.
    split; [reflexivity |]. split.
    + rewrite dict_get_set, String.eqb_refl. reflexivity.
    + split; [| reflexivity]. intros k Hk. rewrite dict_get_set.
      destruct (String.eqb_spec k "$where"); [contradiction | reflexivity].
Qed.

Lemma invoke_fresh (m : chain_call) (c : Cursor) (t : list event) :
  __retrieved c = 0 -> __id c = None -> argument_accepted m = true ->
  exists c',
    invoke m (mkWorld c t) = (Ok c', mkWorld c' t)
    /\ __retrieved c' = 0 /\ __id c' = None.
Proof.
  intros Hr Hi Hm. unfold argument_accepted in Hm.
  apply andb_true_iff in Hm. destruct Hm as [He Hc].
  destruct m as [a | a | a | a | a b | a | a]; simpl in *.
  - rewrite (limit_fresh a c t Hr Hi He). eexists. repeat split; assumption.
  - rewrite (skip_fresh a c t Hr Hi He). eexists. repeat split; assumption.
  - rewrite (batch_size_fresh a c t Hr Hi He).
    eexists. repeat split; assumption.
  - rewrite (max_scan_fresh a c t Hr Hi). eexists. repeat split; assumption.
  - destruct (_index_list a b) as [keys |] eqn:E1; [| discriminate].
    destruct (_index_document keys) as [o |] eqn:E2; [| discriminate].
    rewrite (sort_fresh a b keys o c t Hr Hi E1 E2).
    eexists. repeat split; assumption.
  - destruct (hint_fresh a c t Hr Hi Hc) as [h Hh]. rewrite Hh.
    eexists. repeat split; assumption.
  - destruct (where_fresh a c t Hr Hi Hc) as [code Hw]. rewrite Hw.
    eexists. repeat split; assumption.
Qed.

(** [rewind] makes a cursor configurable again: whatever its state, a
    configuration method called after [rewind] with an argument it accepts
    succeeds and returns the cursor. *)
Theorem rewind_allows_configuration (m : chain_call) (w : world) :
  argument_accepted m = true ->
  exists w',
    (rewind ;; invoke m) w = (Ok (cur w'), w')
    /\ trace w' = trace w
    /\ executed (cur w') = false.
Proof.
  intros Hm.
  destruct (invoke_fresh m (cur (snd (rewind w))) (trace w))
    as [c' [Hrun [Hr Hi]]]; [reflexivity | reflexivity | exact Hm |].
  exists (mkWorld c' (trace w)).
  split; [| split; [reflexivity |]].
  - rewrite (bind_ok rewind (invoke m) (cur (snd (rewind w))) w
               (snd (rewind w)) eq_refl).
    exact Hrun.
  - unfold executed. simpl. rewrite Hr, Hi. reflexivity.
Qed.

End Chain_and_rewind.

Lemma dispose_not_live (n : nat) (w : world) :
  live (cur w) = false -> trace (dispose n w) = trace w.
Proof.
  intros Hl. destruct n as [| n]; [reflexivity |]. cbn [dispose].
  rewrite (die_not_live w Hl). cbn [snd].
  rewrite dispose_killed; reflexivity.
Qed.

(** [rewind] never tells the server anything.  It forgets the server
    cursor id without a kill-cursor request, also when the cursor is live;
    and because the id is then unset, no later disposal of the cursor sends
    one either. *)
Theorem rewind_forgets_server_cursor (w : world) :
  trace (snd (rewind w)) = trace w
  /\ live (cur (snd (rewind w))) = false
  /\ (forall n, trace (dispose n (snd (rewind w))) = trace w)
  /\ __del__ (snd (rewind w)) = (Ok tt, snd (rewind w)).
Proof.
  assert (Hl : live (cur (snd (rewind w))) = false) by reflexivity.
  split; [reflexivity |]. split; [exact Hl |]. split.
  - intros n. apply (dispose_not_live n (snd (rewind w)) Hl).
  - rewrite del_cases, Hl. reflexivity.
Qed.

Lemma where_merges_into_filter_witness :
  exists code w',
    @where_ loopback (VStr "this.a > 3") (sample_world 0) = (Ok (cur w'), w')
    /\ code = VCode "this.a > 3"
    /\ dict_get "$where" (__spec (cur w')) = Some code.
Proof.
  destruct (@where_merges_into_filter loopback (VStr "this.a > 3")
              (sample_world 0)) as [code [w' [Hrun [Hcode [Hget _]]]]].
  - reflexivity.
  - reflexivity.
  - exists code, w'. split; [exact Hrun |]. split; [| exact Hget].
    simpl in Hcode. inversion Hcode. reflexivity.
Defined.

Lemma rewind_allows_configuration_witness :
  exists w',
    (rewind ;; @invoke loopback (call_limit (VInt 3))) (started_world 7)
    = (Ok (cur w'), w').
Proof.
  destruct (@rewind_allows_configuration loopback (call_limit (VInt 3))
              (started_world 7)) as [w' [Hrun _]].
  - reflexivity.
  - exists w'. exact Hrun.
Defined.

(** ** Instances of the further properties *)

Lemma init_returns_unqueried_cursor_witness :
  unqueried (sample_cursor 7) /\ executed (sample_cursor 7) = false.
Proof.
  assert (Hinit : @__init__ loopback testcollection handle VNone VNone VNone
                    (VInt 0) (VInt 7) (VBool true) (VBool false)
                    (VBool false) VNone VNone VNone (VBool true)
                    (VBool false) (VBool false) []
                  = Ok (sample_cursor 7)) by (vm_compute; reflexivity).
  destruct (@init_returns_unqueried_cursor loopback _ _ _ _ _ _ _ _ _ _ _ _
              _ _ _ _ _ _ Hinit) as [_ [Hu [He _]]].
  split; [exact Hu | exact He].
Defined.

Lemma init_rejects_ill_typed_witness :
  exists msg,
    @__init__ loopback testcollection handle VNone VNone VNone
      (VStr "0") (VInt 7) (VBool true) (VBool false) (VBool false) VNone
      VNone VNone (VBool true) (VBool false) (VBool false) []
    = Raise (TypeError msg).
Proof.
  apply (@init_rejects_ill_typed loopback). reflexivity.
Defined.

Lemma init_normalizes_projection_and_ordering_witness :
  exists c,
    @__init__ loopback testcollection handle VNone VNone (VList [])
      (VInt 0) (VInt 7) (VBool true) (VBool false) (VBool false) VNone
      VNone VNone (VBool true) (VBool false) (VBool false) []
    = Ok c
    /\ __fields c = VDict [("_id", VInt 1)].
Proof.
  destruct (@__init__ loopback testcollection handle VNone VNone (VList [])
              (VInt 0) (VInt 7) (VBool true) (VBool false) (VBool false)
              VNone VNone VNone (VBool true) (VBool false) (VBool false) [])
    as [c | e] eqn:Hinit; [| vm_compute in Hinit; discriminate].
  exists c. split; [reflexivity |].
  apply (proj1 (proj2 (@init_normalizes_projection_and_ordering loopback
                         _ _ _ _ _ _ _ _ _ _ _ _ _ _ _ _ _ c Hinit))).
  - reflexivity.
  - reflexivity.
Defined.

Lemma query_spec_wraps_plain_filter_witness :
  __query_spec (sample_world 7)
  = (Ok [("$query", VDict [])], sample_world 7).
Proof.
  apply (query_spec_wraps_plain_filter (sample_world 7)).
  - reflexivity.
  - reflexivity.
Defined.

Lemma rewind_replays_initial_query_witness :
  exists w',
    @loop loopback
      (snd (rewind (snd (@drive loopback [batch 0 0 3] (sample_world 0)))))
    = (Ok (Awaiting (initial_query (sample_cursor 0))), w').
Proof.
  destruct (proj2 (@rewind_replays_initial_query loopback [batch 0 0 3]
                     (sample_world 0))) as [w' [Hloop _]].
  - vm_compute. reflexivity.
  - exists w'. exact Hloop.
Defined.

Lemma initial_query_ignores_batch_size_witness :
  fst (_refresh (mkWorld (set_batch_size 100 (sample_cursor 7)) []))
  = fst (_refresh (sample_world 7)).
Proof.
  apply (@initial_query_ignores_batch_size (sample_world 7) 100).
  reflexivity.
Defined.

Lemma delivered_cursor_not_alive_witness :
  alive (cur (snd (@drive loopback [batch 0 0 3] (sample_world 0)))) = false.
Proof.
  apply (proj1 (@delivered_cursor_not_alive loopback [batch 0 0 3]
                  (sample_world 0))).
  - vm_compute. reflexivity.
  - vm_compute. reflexivity.
Defined.





Lemma last_call_wins_witness :
  (@invoke loopback (call_limit (VInt 3)) ;;
   @invoke loopback (call_limit (VInt 9))) (sample_world 0)
  = @invoke loopback (call_limit (VInt 9)) (sample_world 0).
Proof.
  apply (@last_call_wins loopback (call_limit (VInt 3)) (call_limit (VInt 9))
           (sample_world 0)).
  - reflexivity.
  - reflexivity.
  - reflexivity.
  - reflexivity.
Defined.


